(** * cvChain: a record store chaincode over a key-addressed ledger

    Shallow embedding of [cvChain.go] (package [main]) and the properties
    of its four operations [addRecord], [getRecord], [encRecord] and
    [decRecord], dispatched by [Invoke].

    Go strings are byte strings: they are [string] here, and [[]byte] is
    [list byte].  The ledger and the cipher are collaborators of the
    chaincode; the ledger lives in the stub that every function receives
    and returns, the cipher is an interface the development is
    parametrised by. *)

From Stdlib Require Import ZArith Strings.String Strings.Ascii Strings.Byte.
From stdpp Require Import base gmap strings list.

Open Scope string_scope.

(** ** Go values *)

(** [[]byte]. *)
Abbreviation bytes := (list byte).

(** [[]byte(s)] and [string(b)]. *)
Definition bytes_of_string (s : string) : bytes := list_byte_of_string s.
Definition string_of_bytes (b : bytes) : string := string_of_list_byte b.

(** A slice that may be [nil]: [string(nil)] is the empty string. *)
Definition string_of_slice (v : option bytes) : string :=
  match v with
  | Some b => string_of_bytes b
  | None => EmptyString
  end.

(** The [error] interface: [Error] is what [err.Error()] and the verb [%s]
    print, [FormatPlusV] what the verb [%+v] prints (the same text for the
    errors of [fmt] and [errors], more for errors that carry a stack). *)
Record error := mkError { Error : string; FormatPlusV : string }.

(** [fmt.Errorf] with its format already applied. *)
Definition Errorf (msg : string) : error :=
  {| Error := msg; FormatPlusV := msg |}.

(** A Go call either returns or panics (an index out of range). *)
Inductive outcome (A : Type) : Type :=
| Returns (a : A)
| Panics.
Arguments Returns {A} a.
Arguments Panics {A}.

(** [l[i]]. *)
Definition index {A} (l : list A) (i : nat) : outcome A :=
  match l !! i with
  | Some a => Returns a
  | None => Panics
  end.

(** ** [strings.Split]

    [Split s sep] cuts [s] around each instance of a non-empty [sep];
    [skip] counts the bytes of a separator still to be passed over. *)
Fixpoint genSplit (sep : string) (skip : nat) (s : string) : list string :=
  match s with
  | EmptyString => [EmptyString]
  | String c s' =>
      match skip with
      | S k => genSplit sep k s'
      | O =>
          if String.prefix sep s
          then EmptyString :: genSplit sep (String.length sep - 1) s'
          else match genSplit sep 0 s' with
               | h :: t => String c h :: t
               | [] => [String c EmptyString]
               end
      end
  end.

Definition Split (s sep : string) : list string := genSplit sep 0 s.

(** ** The constants of the chaincode *)

Definition DECKEY : string := "DECKEY".
Definition ENCKEY : string := "ENCKEY".
Definition IV : string := "IV".

(** ** The chaincode stub

    [shim.ChaincodeStubInterface] as the chaincode uses it: the function
    name and parameters of the proposal, the transient map, and the world
    state with [GetState] and [PutState].  The two [_err] fields say when
    the ledger reports a fault.  [stub_calls] is a ghost field: the calls
    made to the ledger and to the cipher, oldest first. *)
Inductive Call : Type :=
| CallGetState (key : string)
| CallPutState (key : string) (value : bytes)
| CallNewEntity (key iv : bytes)
| CallEncrypt (plaintext : bytes)
| CallDecrypt (ciphertext : bytes).

Record ChaincodeStub := mkStub {
  stub_fn : string;
  stub_args : list string;
  stub_transient : gmap string bytes * option error;
  stub_state : gmap string bytes;
  stub_GetState_err : string -> option error;
  stub_PutState_err : string -> bytes -> option error;
  stub_calls : list Call
}.

Definition record_call (c : Call) (stub : ChaincodeStub) : ChaincodeStub :=
  {| stub_fn := stub_fn stub;
     stub_args := stub_args stub;
     stub_transient := stub_transient stub;
     stub_state := stub_state stub;
     stub_GetState_err := stub_GetState_err stub;
     stub_PutState_err := stub_PutState_err stub;
     stub_calls := stub_calls stub ++ [c] |}.

Definition set_state (m : gmap string bytes) (stub : ChaincodeStub) : ChaincodeStub :=
  {| stub_fn := stub_fn stub;
     stub_args := stub_args stub;
     stub_transient := stub_transient stub;
     stub_state := m;
     stub_GetState_err := stub_GetState_err stub;
     stub_PutState_err := stub_PutState_err stub;
     stub_calls := stub_calls stub |}.

Definition GetFunctionAndParameters (stub : ChaincodeStub) : string * list string :=
  (stub_fn stub, stub_args stub).

Definition GetTransient (stub : ChaincodeStub) : gmap string bytes * option error :=
  stub_transient stub.

(** [GetState] returns [nil] for a key that is not in the state. *)
Definition GetState (stub : ChaincodeStub) (key : string)
  : (option bytes * option error) * ChaincodeStub :=
  let stub := record_call (CallGetState key) stub in
  match stub_GetState_err stub key with
  | Some e => ((None, Some e), stub)
  | None => ((stub_state stub !! key, None), stub)
  end.

Definition PutState (stub : ChaincodeStub) (key : string) (value : bytes)
  : option error * ChaincodeStub :=
  let stub := record_call (CallPutState key value) stub in
  match stub_PutState_err stub key value with
  | Some e => (Some e, stub)
  | None => (None, set_state (<[key := value]> (stub_state stub)) stub)
  end.

(** ** The plaintext record store *)

(** Steps of a function that may panic, threaded in order. *)
Definition obind {A B} (o : outcome A) (k : A -> outcome B * ChaincodeStub)
    (stub : ChaincodeStub) : outcome B * ChaincodeStub :=
  match o with
  | Returns a => k a
  | Panics => (Panics, stub)
  end.

Notation "x <-! o 'on' stub ; k" := (obind o (fun x => k) stub)
  (at level 200, o at level 100, stub at level 0, k at level 200,
   right associativity, only parsing).

Definition addRecord (stub : ChaincodeStub) (args : list string)
  : outcome (string * option error) * ChaincodeStub :=
  if negb (length args =? 4)%nat then
    (Returns (EmptyString, Some (Errorf "Incorrect arguments. Expecting a key and a value")), stub)
  else
    a0 <-! index args 0 on stub;
    a1 <-! index args 1 on stub;
    let key := a0 +:+ ":" +:+ a1 in
    a2 <-! index args 2 on stub;
    a3 <-! index args 3 on stub;
    let value := a2 +:+ ":" +:+ a3 in
    let '(err, stub) := PutState stub key (bytes_of_string value) in
    match err with
    | Some _ => (Returns (EmptyString, Some (Errorf ("Failed to set asset: " +:+ a0))), stub)
    | None => (Returns (value, None), stub)
    end.

Definition getRecord (stub : ChaincodeStub) (args : list string)
  : outcome (string * option error) * ChaincodeStub :=
  if negb (length args =? 2)%nat then
    (Returns (EmptyString, Some (Errorf "Incorrect arguments. Expecting a key")), stub)
  else
    a0 <-! index args 0 on stub;
    a1 <-! index args 1 on stub;
    let key := a0 +:+ ":" +:+ a1 in
    let '((value, err), stub) := GetState stub key in
    let result := Split (string_of_slice value) ":" in
    match err with
    | Some e =>
        (Returns (EmptyString, Some (Errorf ("Failed to get asset: " +:+ a0 +:+
                                    " with error: " +:+ Error e))), stub)
    | None =>
        match value with
        | None => (Returns (EmptyString, Some (Errorf ("Asset not found: " +:+ a0))), stub)
        | Some _ =>
            r0 <-! index result 0 on stub;
            (Returns (r0, None), stub)
        end
    end.

(** ** The cipher collaborator

    Package [entities] and the [bccsp] provider behind it, as an
    interface: building an AES-256 encrypter entity from a key and an IV,
    and the entity's [Encrypt] and [Decrypt]. *)
Inductive res (A : Type) : Type :=
| Val (a : A)
| Err (e : error).
Arguments Val {A} a.
Arguments Err {A} e.

Class Entities := {
  BCCSP : Type;
  Entity : Type;
  NewAES256EncrypterEntity : string -> BCCSP -> bytes -> bytes -> res Entity;
  Encrypt : Entity -> bytes -> res bytes;
  Decrypt : Entity -> bytes -> res bytes
}.

(** [peer.Response] with [shim.Success] and [shim.Error]. *)
Record Response := mkResponse {
  Status : Z;
  Message : string;
  Payload : option bytes
}.

Definition shim_Success (payload : option bytes) : Response :=
  {| Status := 200; Message := EmptyString; Payload := payload |}.

Definition shim_Error (msg : string) : Response :=
  {| Status := 500; Message := msg; Payload := None |}.

Section Chaincode.

Context `{Entities}.

(** The error the read helper gives for a record that is not on the
    ledger; the specification names its kind, [NotFoundError], and not
    its text. *)
Variable NotFoundError : error.

Record SimpleAsset := mkSimpleAsset { bccspInst : BCCSP }.

(** The calls to the cipher, each recorded in [stub_calls]. *)
Definition newEntity (t : SimpleAsset) (key iv : bytes) (stub : ChaincodeStub)
  : res Entity * ChaincodeStub :=
  (NewAES256EncrypterEntity "ID" (bccspInst t) key iv,
   record_call (CallNewEntity key iv) stub).

Definition entEncrypt (ent : Entity) (plaintext : bytes) (stub : ChaincodeStub)
  : res bytes * ChaincodeStub :=
  (Encrypt ent plaintext, record_call (CallEncrypt plaintext) stub).

Definition entDecrypt (ent : Entity) (ciphertext : bytes) (stub : ChaincodeStub)
  : res bytes * ChaincodeStub :=
  (Decrypt ent ciphertext, record_call (CallDecrypt ciphertext) stub).

(** Modelled from the spec: [encryptAndPutState] is called by [Encrypter]
    and is not in [cvChain.go].  The specification of [encRecord] has it
    encrypt the value bytes and write the ciphertext to the ledger under
    the key; an error is returned where it arises. *)
Definition encryptAndPutState (stub : ChaincodeStub) (ent : Entity)
    (key : string) (value : bytes) : option error * ChaincodeStub :=
  let '(r, stub) := entEncrypt ent value stub in
  match r with
  | Err e => (Some e, stub)
  | Val ciphertext => PutState stub key ciphertext
  end.

(** Modelled from the spec: [getStateAndDecrypt] is called by [Decrypter]
    and is not in [cvChain.go].  The specification of [decRecord] has it
    fetch the ciphertext of the key from the ledger, fail with
    [NotFoundError] if it is absent (the ledger signals absence by a nil
    or empty read), and decrypt it otherwise. *)
Definition getStateAndDecrypt (stub : ChaincodeStub) (ent : Entity)
    (key : string) : res bytes * ChaincodeStub :=
  let '((ciphertext, err), stub) := GetState stub key in
  match err with
  | Some e => (Err e, stub)
  | None =>
      match ciphertext with
      | None | Some [] => (Err NotFoundError, stub)
      | Some ct => entDecrypt ent ct stub
      end
  end.

(** ** The encrypted record adapter *)

Definition Encrypter (t : SimpleAsset) (stub : ChaincodeStub)
    (args : list string) (encKey IV : bytes)
  : outcome (string * option error) * ChaincodeStub :=
  let '(r, stub) := newEntity t encKey IV stub in
  match r with
  | Err e =>
      (Returns (EmptyString,
                Some (Errorf ("entities.NewAES256EncrypterEntity failed, err "
                              +:+ Error e))), stub)
  | Val ent =>
      if negb (length args =? 4)%nat then
        (Returns (EmptyString,
                  Some (Errorf "Expected 4 parameters to function Encrypter")), stub)
      else
        a0 <-! index args 0 on stub;
        a1 <-! index args 1 on stub;
        let key := a0 +:+ ":" +:+ a1 in
        a2 <-! index args 2 on stub;
        a3 <-! index args 3 on stub;
        let value := a2 +:+ ":" +:+ a3 in
        let cleartextValue := bytes_of_string value in
        let '(err, stub) := encryptAndPutState stub ent key cleartextValue in
        match err with
        | Some e =>
            (Returns (EmptyString,
                      Some (Errorf ("encryptAndPutState failed, err "
                                    +:+ FormatPlusV e))), stub)
        | None => (Returns (value, None), stub)
        end
  end.

Definition Decrypter (t : SimpleAsset) (stub : ChaincodeStub)
    (args : list string) (decKey IV : bytes)
  : outcome (string * option error) * ChaincodeStub :=
  let '(r, stub) := newEntity t decKey IV stub in
  match r with
  | Err e =>
      (Returns (EmptyString,
                Some (Errorf ("entities.NewAES256EncrypterEntity failed, err "
                              +:+ Error e))), stub)
  | Val ent =>
      if negb (length args =? 2)%nat then
        (Returns (EmptyString,
                  Some (Errorf "Expected 2 parameters to function Decrypter")), stub)
      else
        a0 <-! index args 0 on stub;
        a1 <-! index args 1 on stub;
        let key := a0 +:+ ":" +:+ a1 in
        let '(r, stub) := getStateAndDecrypt stub ent key in
        match r with
        | Err e =>
            (Returns (EmptyString,
                      Some (Errorf ("getStateAndDecrypt failed, err "
                                    +:+ FormatPlusV e))), stub)
        | Val cleartextValue =>
            let result := Split (string_of_bytes cleartextValue) ":" in
            r0 <-! index result 0 on stub;
            (Returns (r0, None), stub)
        end
  end.

(** ** The dispatcher *)

(** [tMap[label]]: the entry, or [nil] when there is none. *)
Definition tMap_at (tMap : gmap string bytes) (label : string) : bytes :=
  default [] (tMap !! label).

(** The end of [Invoke], after the [switch]. *)
Definition respond (r : outcome (string * option error) * ChaincodeStub)
  : outcome Response * ChaincodeStub :=
  match r with
  | (Panics, stub) => (Panics, stub)
  | (Returns (_, Some err), stub) => (Returns (shim_Error (Error err)), stub)
  | (Returns (result, None), stub) =>
      (Returns (shim_Success (Some (bytes_of_string result))), stub)
  end.

Definition Invoke (t : SimpleAsset) (stub : ChaincodeStub)
  : outcome Response * ChaincodeStub :=
  let '(fn, args) := GetFunctionAndParameters stub in
  let '(tMap, err) := GetTransient stub in
  match err with
  | Some e =>
      (Returns (shim_Error ("Could not retrieve transient, err " +:+ Error e)), stub)
  | None =>
      if String.eqb fn "addRecord" then respond (addRecord stub args)
      else if String.eqb fn "getRecord" then respond (getRecord stub args)
      else if String.eqb fn "encRecord" then
        match tMap !! ENCKEY with
        | None =>
            (Returns (shim_Error ("Expected transient encryption key " +:+ ENCKEY)), stub)
        | Some _ =>
            respond (Encrypter t stub args (tMap_at tMap ENCKEY) (tMap_at tMap IV))
        end
      else if String.eqb fn "decRecord" then
        match tMap !! DECKEY with
        | None =>
            (Returns (shim_Error ("Expected transient decryption key " +:+ DECKEY)), stub)
        | Some _ =>
            respond (Decrypter t stub args (tMap_at tMap DECKEY) (tMap_at tMap IV))
        end
      else (Returns (shim_Error ("Unsupported function " +:+ fn)), stub)
  end.

End Chaincode.

(** One more entry point of the chaincode: [Init] does nothing. *)
Definition Init (stub : ChaincodeStub) : Response * ChaincodeStub :=
  (shim_Success None, stub).

(** ** Vocabulary of the properties *)

(** A component without the separator. *)
Fixpoint colon_free (s : string) : bool :=
  match s with
  | EmptyString => true
  | String c s' => negb (Ascii.eqb c ":") && colon_free s'
  end.

(** [r] is the part of [s] before its first colon, all of [s] when [s]
    has none. *)
Definition before_first_colon (r s : string) : Prop :=
  colon_free r = true /\ (s = r \/ exists rest, s = r +:+ ":" +:+ rest).

(** [strings.Contains]: [substr] occurs in [s]. *)
Fixpoint Contains (s substr : string) : bool :=
  String.prefix substr s ||
  match s with
  | EmptyString => false
  | String _ s' => Contains s' substr
  end.

(** The Composite Key and the Composite Value, as every operation
    serializes them. *)
Definition compositeKey (namespace id : string) : string :=
  namespace +:+ ":" +:+ id.

Definition compositeValue (field1 field2 : string) : string :=
  field1 +:+ ":" +:+ field2.

(** ** A cipher and ledgers to run the chaincode on

    An implementation of the cipher interface for the examples.  As with
    AES-256, a key has 32 bytes; an entity is its key and IV; the
    ciphertext is the reversed plaintext after a tag byte taken from the
    key, and decryption checks the tag. *)
Module TestCipher.

Definition tag (ent : bytes * bytes) : byte := hd "000"%byte (fst ent).

Definition new (ID : string) (provider : unit) (key iv : bytes)
  : res (bytes * bytes) :=
  if (length key =? 32)%nat then Val (key, iv)
  else Err (Errorf "Invalid Key Length").

Definition encrypt (ent : bytes * bytes) (plaintext : bytes) : res bytes :=
  Val (tag ent :: rev plaintext).

Definition decrypt (ent : bytes * bytes) (ciphertext : bytes) : res bytes :=
  match ciphertext with
  | c :: body =>
      if Byte.eqb c (tag ent) then Val (rev body)
      else Err (Errorf "wrong tag")
  | [] => Err (Errorf "empty ciphertext")
  end.

Definition entities : Entities :=
  {| BCCSP := unit;
     Entity := bytes * bytes;
     NewAES256EncrypterEntity := new;
     Encrypt := encrypt;
     Decrypt := decrypt |}.

Definition asset : @SimpleAsset entities := @mkSimpleAsset entities tt.

Definition notFound : error := Errorf "no ciphertext to decrypt".

(** A key of 32 bytes and a key of one byte. *)
Definition key32 : bytes := replicate 32 "k"%byte.
Definition key1 : bytes := ["k"%byte].
Definition iv16 : bytes := replicate 16 "v"%byte.

End TestCipher.

(** Secret Bundles: a key under a label, with or without an IV. *)
Definition bundle (label : string) (key : bytes) : gmap string bytes :=
  {[label := key]}.

Definition bundle_iv (label : string) (key iv : bytes) : gmap string bytes :=
  <[IV := iv]> (bundle label key).

(** A stub for a proposal [fn args] with transient map [tMap] over the
    world state [state]; the ledger reports no fault. *)
Definition proposal (fn : string) (args : list string)
    (tMap : gmap string bytes) (state : gmap string bytes) : ChaincodeStub :=
  {| stub_fn := fn;
     stub_args := args;
     stub_transient := (tMap, None);
     stub_state := state;
     stub_GetState_err := fun _ => None;
     stub_PutState_err := fun _ _ => None;
     stub_calls := [] |}.

(** The same over a ledger whose every put reports a fault. *)
Definition proposal_put_fault (fn : string) (args : list string)
    (tMap : gmap string bytes) (state : gmap string bytes) : ChaincodeStub :=
  {| stub_fn := fn;
     stub_args := args;
     stub_transient := (tMap, None);
     stub_state := state;
     stub_GetState_err := fun _ => None;
     stub_PutState_err := fun _ _ => Some (Errorf "write fault");
     stub_calls := [] |}.

(** The same over a ledger whose every get reports a fault. *)
Definition proposal_get_fault (fn : string) (args : list string)
    (tMap : gmap string bytes) (state : gmap string bytes) : ChaincodeStub :=
  {| stub_fn := fn;
     stub_args := args;
     stub_transient := (tMap, None);
     stub_state := state;
     stub_GetState_err := fun _ => Some (Errorf "read fault");
     stub_PutState_err := fun _ _ => None;
     stub_calls := [] |}.

(** The same when the transient map cannot be retrieved. *)
Definition proposal_no_transient (fn : string) (args : list string)
    (state : gmap string bytes) : ChaincodeStub :=
  {| stub_fn := fn;
     stub_args := args;
     stub_transient := (∅, Some (Errorf "transient fault"));
     stub_state := state;
     stub_GetState_err := fun _ => None;
     stub_PutState_err := fun _ _ => None;
     stub_calls := [] |}.

(** A world state with one plaintext record, (alice, 100) under
    (acct, 7). *)
Definition ledger_acct7 : gmap string bytes :=
  {["acct:7" := bytes_of_string "alice:100"]}.

(** The stub of a following transaction: a new proposal over the ledger,
    with its faults and its log, that [stub] is left with. *)
Definition next_stub (fn : string) (args : list string)
    (tMap : gmap string bytes) (stub : ChaincodeStub) : ChaincodeStub :=
  {| stub_fn := fn;
     stub_args := args;
     stub_transient := (tMap, None);
     stub_state := stub_state stub;
     stub_GetState_err := stub_GetState_err stub;
     stub_PutState_err := stub_PutState_err stub;
     stub_calls := stub_calls stub |}.

(** [strings.Join]: the elements with [sep] between them. *)
Fixpoint Join (elems : list string) (sep : string) : string :=
  match elems with
  | [] => EmptyString
  | [e] => e
  | e :: rest => e +:+ sep +:+ Join rest sep
  end.

(** What a run of an operation from [stub] may do: it returns, an error
    leaves the world state as it was, and the world state changes by at
    most one put. *)
Definition one_put (stub : ChaincodeStub)
    (run : outcome (string * option error) * ChaincodeStub) : Prop :=
  exists r err stub',
    run = (Returns (r, err), stub') /\
    (is_Some err -> stub_state stub' = stub_state stub) /\
    (stub_state stub' = stub_state stub \/
     exists key value, stub_state stub' = <[key := value]> (stub_state stub)).

(** ** [strings.Split] on the separator *)

Section SplitFacts.

Lemma genSplit_nonempty sep skip s : genSplit sep skip s <> [].
Proof.
  revert skip; induction s as [|c s IHs]; intros skip; cbn [genSplit]; [done|].
  destruct skip as [|k]; [|apply IHs].
  destruct (String.prefix sep (String c s)); [done|].
  destruct (genSplit sep 0 s); done.
Qed.

Lemma Split_nonempty s sep : exists r t, Split s sep = r :: t.
Proof.
  unfold Split. pose proof (genSplit_nonempty sep 0 s) as Hne.
  destruct (genSplit sep 0 s) as [|r t]; [done|eauto].
Qed.

Lemma prefix_colon c s : String.prefix ":" (String c s) = Ascii.eqb c ":".
Proof.
  change (String.prefix ":" (String c s))
    with (if ascii_dec ":" c then String.prefix EmptyString s else false).
  destruct (ascii_dec ":" c) as [<-|Hne].
  - by destruct s.
  - by destruct (Ascii.eqb_spec c ":") as [->|_].
Qed.

Lemma Split_colon_cons c s :
  Split (String c s) ":" =
    if Ascii.eqb c ":" then EmptyString :: Split s ":"
    else match Split s ":" with
         | h :: t => String c h :: t
         | [] => [String c EmptyString]
         end.
Proof.
  unfold Split. cbn [genSplit]. rewrite prefix_colon.
  reflexivity.
Qed.

Lemma Split_colon_free s :
  colon_free s = true -> Split s ":" = [s].
Proof.
  induction s as [|c s IHs]; [done|].
  simpl; intros [Hc Hs]%andb_prop.
  rewrite Split_colon_cons, (IHs Hs).
  by destruct (Ascii.eqb c ":").
Qed.

Lemma Split_first a rest :
  colon_free a = true ->
  Split (a +:+ ":" +:+ rest) ":" = a :: Split rest ":".
Proof.
  induction a as [|c a IHa].
  - intros _. change (EmptyString +:+ ":" +:+ rest) with (String ":" rest).
    by rewrite Split_colon_cons.
  - cbn [colon_free]; intros [Hc Ha]%andb_prop.
    change (String c a +:+ ":" +:+ rest) with (String c (a +:+ ":" +:+ rest)).
    rewrite Split_colon_cons, (IHa Ha).
    by destruct (Ascii.eqb c ":").
Qed.

Lemma Split_head s :
  exists r t, Split s ":" = r :: t /\ before_first_colon r s.
Proof.
  induction s as [|c s (r & t & Hs & Hfree & Hshape)].
  - exists EmptyString, []. repeat split; auto.
  - rewrite Split_colon_cons, Hs.
    destruct (Ascii.eqb_spec c ":") as [->|Hne].
    + exists EmptyString, (r :: t). repeat split; eauto.
    + exists (String c r), t. split; [done|]. split.
      * simpl. rewrite Hfree. by destruct (Ascii.eqb_spec c ":").
      * destruct Hshape as [->|[rest ->]]; [by left|right; by exists rest].
Qed.

Lemma colon_free_app_colon r rest :
  colon_free (r +:+ ":" +:+ rest) = false.
Proof.
  induction r as [|c r IHr]; [done|].
  simpl. rewrite IHr. apply andb_false_r.
Qed.

Lemma before_first_colon_unique r r' s :
  before_first_colon r s -> before_first_colon r' s -> r = r'.
Proof.
  intros Hr Hr'. destruct (Split_head s) as (h & t & Hs & _).
  assert (forall x, before_first_colon x s -> x = h) as Huniq.
  { intros x [Hx [->|[rest ->]]].
    - rewrite (Split_colon_free _ Hx) in Hs. congruence.
    - rewrite (Split_first _ _ Hx) in Hs. congruence. }
  by rewrite (Huniq r Hr), (Huniq r' Hr').
Qed.

End SplitFacts.

(** ** The plaintext record store: equations *)

Section RecordStore.

Lemma addRecord_eq stub namespace id field1 field2 :
  let key := compositeKey namespace id in
  let value := bytes_of_string (compositeValue field1 field2) in
  let stub' := record_call (CallPutState key value) stub in
  addRecord stub [namespace; id; field1; field2] =
    match stub_PutState_err stub key value with
    | Some _ =>
        (Returns (EmptyString,
                  Some (Errorf ("Failed to set asset: " +:+ namespace))), stub')
    | None =>
        (Returns (compositeValue field1 field2, None),
         set_state (<[key := value]> (stub_state stub)) stub')
    end.
Proof.
  unfold addRecord, PutState, compositeKey, compositeValue.
  cbn [length Nat.eqb negb obind index lookup list_lookup record_call
       stub_PutState_err stub_state].
  by destruct (stub_PutState_err stub _ _).
Qed.

Lemma getRecord_eq stub namespace id :
  let key := compositeKey namespace id in
  let stub' := record_call (CallGetState key) stub in
  getRecord stub [namespace; id] =
    match stub_GetState_err stub key with
    | Some e =>
        (Returns (EmptyString,
                  Some (Errorf ("Failed to get asset: " +:+ namespace +:+
                                " with error: " +:+ Error e))), stub')
    | None =>
        match stub_state stub !! key with
        | None =>
            (Returns (EmptyString,
                      Some (Errorf ("Asset not found: " +:+ namespace))), stub')
        | Some v =>
            obind (index (Split (string_of_bytes v) ":") 0)
                  (fun r0 => (Returns (r0, None), stub')) stub'
        end
    end.
Proof.
  unfold getRecord, GetState, compositeKey.
  cbn [length Nat.eqb negb obind index lookup list_lookup record_call
       stub_GetState_err stub_state].
  destruct (stub_GetState_err stub _); [done|].
  by destruct (stub_state stub !! _).
Qed.

End RecordStore.

(** ** The plaintext record store: properties *)

Section RecordStoreProperties.

Lemma append_cons c (a b : string) : String c a +:+ b = String c (a +:+ b).
Proof. reflexivity. Qed.

Lemma append_assoc_colon (a b c : string) :
  (a +:+ b) +:+ c = a +:+ (b +:+ c).
Proof.
  induction a as [|x a IHa]; [done|]. by rewrite !append_cons, IHa.
Qed.

(** The first element of the split of a serialized value is the part of
    its first field before the first colon. *)
Lemma Split_compositeValue field1 field2 :
  exists r t, Split (compositeValue field1 field2) ":" = r :: t /\
              before_first_colon r field1.
Proof.
  destruct (Split_head field1) as (r & t & _ & Hr).
  pose proof Hr as [Hfree [->|[rest ->]]]; unfold compositeValue.
  - exists r, (Split field2 ":"). split; [by apply Split_first|done].
  - exists r, (Split (rest +:+ ":" +:+ field2) ":"). split; [|done].
    rewrite append_assoc_colon, (append_assoc_colon ":" rest).
    by apply Split_first.
Qed.

Lemma before_first_colon_free r s :
  before_first_colon r s -> colon_free s = true -> r = s.
Proof.
  intros [_ [->|[rest ->]]] Hs; [done|].
  by rewrite colon_free_app_colon in Hs.
Qed.

(** What [getRecord] gives on a stub whose state holds [v] at the key. *)
Lemma getRecord_stored stub namespace id v :
  stub_GetState_err stub (compositeKey namespace id) = None ->
  stub_state stub !! compositeKey namespace id = Some v ->
  exists r t,
    Split (string_of_bytes v) ":" = r :: t /\
    getRecord stub [namespace; id] =
      (Returns (r, None),
       record_call (CallGetState (compositeKey namespace id)) stub).
Proof.
  intros Herr Hv. rewrite getRecord_eq; cbv zeta. rewrite Herr, Hv.
  destruct (Split_nonempty (string_of_bytes v) ":") as (r & t & Hs).
  exists r, t. split; [done|]. by rewrite Hs.
Qed.

Lemma string_of_bytes_of_string s : string_of_bytes (bytes_of_string s) = s.
Proof. apply string_of_list_byte_of_string. Qed.

(** The state after a put that reported no fault. *)
Lemma addRecord_ok stub namespace id field1 field2 r stub1 :
  addRecord stub [namespace; id; field1; field2] = (Returns (r, None), stub1) ->
  r = compositeValue field1 field2 /\
  stub_state stub1 !! compositeKey namespace id
    = Some (bytes_of_string (compositeValue field1 field2)) /\
  stub_GetState_err stub1 = stub_GetState_err stub /\
  stub_PutState_err stub1 = stub_PutState_err stub.
Proof.
  rewrite addRecord_eq; cbv zeta.
  destruct (stub_PutState_err stub _ _); [done|].
  intros [= <- <-]. cbn [set_state record_call stub_state stub_GetState_err
                         stub_PutState_err].
  by rewrite lookup_insert_eq.
Qed.

(** C1. Round trip of the plaintext store: on a ledger whose put and get
    report no fault, [addRecord(namespace, id, field1, field2)] succeeds
    and the following [getRecord(namespace, id)] succeeds and returns
    [field1] unchanged, when [field1] has no colon.  (The claim also asks
    [namespace], [id] and [field2] to be colon-free; the round trip does not
    need it.) *)
Theorem addRecord_getRecord_roundtrip stub namespace id field1 field2 :
  colon_free field1 = true ->
  stub_PutState_err stub (compositeKey namespace id)
    (bytes_of_string (compositeValue field1 field2)) = None ->
  stub_GetState_err stub (compositeKey namespace id) = None ->
  exists stub1 stub2,
    addRecord stub [namespace; id; field1; field2]
      = (Returns (compositeValue field1 field2, None), stub1) /\
    getRecord stub1 [namespace; id] = (Returns (field1, None), stub2).
Proof.
  intros Hfree Hput Hget.
  destruct (addRecord stub [namespace; id; field1; field2]) as [o stub1] eqn:Hadd.
  pose proof Hadd as Hadd'. rewrite addRecord_eq in Hadd'; cbv zeta in Hadd'.
  rewrite Hput in Hadd'. injection Hadd' as <- Hstub1.
  destruct (addRecord_ok _ _ _ _ _ _ _ Hadd) as (_ & Hst & Hg & _).
  rewrite <- Hg in Hget.
  destruct (getRecord_stored _ _ _ _ Hget Hst) as (r & t & Hs & Hrec).
  rewrite string_of_bytes_of_string in Hs. unfold compositeValue in Hs.
  rewrite (Split_first _ _ Hfree) in Hs. injection Hs as <- _.
  eauto.
Qed.

(** C5, as amended. When the ledger put of a four-argument [addRecord]
    reports a fault, [addRecord] fails with the write error, whose message
    is "Failed to set asset: " followed by the namespace (the first
    argument, not the id), and the world state is unchanged. *)
Theorem addRecord_put_fault stub namespace id field1 field2 e :
  stub_PutState_err stub (compositeKey namespace id)
    (bytes_of_string (compositeValue field1 field2)) = Some e ->
  exists stub1,
    addRecord stub [namespace; id; field1; field2]
      = (Returns (EmptyString,
                  Some (Errorf ("Failed to set asset: " +:+ namespace))), stub1) /\
    stub_state stub1 = stub_state stub.
Proof.
  intros Hput. rewrite addRecord_eq; cbv zeta. rewrite Hput. eauto.
Qed.

(** C7, as amended. After two successive successful [addRecord] calls on
    the same (namespace, id), with values (f1, f2) and then (g1, g2), the
    ledger entry at the Composite Key holds the serialization of the
    second value, and a [getRecord] whose read reports no fault succeeds
    and returns the part of [g1] before its first colon: [g1] itself when
    [g1] has no colon. *)
Theorem addRecord_twice_last_writer_wins
    stub stub1 stub2 namespace id f1 f2 g1 g2 r1 r2 :
  addRecord stub [namespace; id; f1; f2] = (Returns (r1, None), stub1) ->
  addRecord stub1 [namespace; id; g1; g2] = (Returns (r2, None), stub2) ->
  stub_state stub2 !! compositeKey namespace id
    = Some (bytes_of_string (compositeValue g1 g2)) /\
  (stub_GetState_err stub2 (compositeKey namespace id) = None ->
   exists r stub3,
     getRecord stub2 [namespace; id] = (Returns (r, None), stub3) /\
     before_first_colon r g1 /\
     (colon_free g1 = true -> r = g1)).
Proof.
  intros _ Hadd2.
  destruct (addRecord_ok _ _ _ _ _ _ _ Hadd2) as (_ & Hst & _ & _).
  split; [done|]. intros Hget.
  destruct (getRecord_stored _ _ _ _ Hget Hst) as (r & t & Hs & Hrec).
  rewrite string_of_bytes_of_string in Hs.
  destruct (Split_compositeValue g1 g2) as (r' & t' & Hs' & Hr').
  rewrite Hs in Hs'. injection Hs' as -> ->.
  eexists r', _. split; [exact Hrec|]. split; [done|].
  by apply before_first_colon_free.
Qed.

(** C8. An [addRecord] with an argument count other than four fails with
    the argument error, and the stub is returned as it was: no ledger put
    (no call at all) is made. *)
Theorem addRecord_arity stub args :
  length args <> 4%nat ->
  addRecord stub args =
    (Returns (EmptyString,
              Some (Errorf "Incorrect arguments. Expecting a key and a value")),
     stub).
Proof.
  intros Hlen. unfold addRecord.
  by destruct (Nat.eqb_spec (length args) 4).
Qed.

End RecordStoreProperties.

Section ReadPath.

(** C10. Whatever bytes are stored at a Composite Key, a [getRecord]
    whose read reports no fault succeeds (it never panics: the split has
    a first element) and returns the part of the stored string before its
    first colon, the whole string when it has none; every success of
    [getRecord] is of this kind.  In particular, after an [addRecord]
    whose first field is [a:b] with [a] colon-free, [getRecord] returns
    [a], which is not the first field. *)
Theorem getRecord_returns_prefix_before_first_colon :
  (forall stub namespace id v,
     stub_GetState_err stub (compositeKey namespace id) = None ->
     stub_state stub !! compositeKey namespace id = Some v ->
     exists r stub1,
       getRecord stub [namespace; id] = (Returns (r, None), stub1) /\
       before_first_colon r (string_of_bytes v) /\
       (colon_free (string_of_bytes v) = true -> r = string_of_bytes v)) /\
  (forall stub namespace id r stub1,
     getRecord stub [namespace; id] = (Returns (r, None), stub1) ->
     exists v,
       stub_state stub !! compositeKey namespace id = Some v /\
       before_first_colon r (string_of_bytes v)) /\
  (forall s, Split s ":" <> []) /\
  (forall stub namespace id a b field2,
     colon_free a = true ->
     stub_PutState_err stub (compositeKey namespace id)
       (bytes_of_string (compositeValue (a +:+ ":" +:+ b) field2)) = None ->
     stub_GetState_err stub (compositeKey namespace id) = None ->
     exists stub1 stub2,
       addRecord stub [namespace; id; a +:+ ":" +:+ b; field2]
         = (Returns (compositeValue (a +:+ ":" +:+ b) field2, None), stub1) /\
       getRecord stub1 [namespace; id] = (Returns (a, None), stub2) /\
       a <> a +:+ ":" +:+ b).
Proof.
  repeat apply conj.
  - intros stub namespace id v Herr Hv.
    destruct (getRecord_stored _ _ _ _ Herr Hv) as (r & t & Hs & Hrec).
    destruct (Split_head (string_of_bytes v)) as (r' & t' & Hs' & Hr').
    rewrite Hs in Hs'. injection Hs' as -> ->.
    eexists r', _. split; [exact Hrec|]. split; [done|].
    by apply before_first_colon_free.
  - intros stub namespace id r stub1. rewrite getRecord_eq; cbv zeta.
    destruct (stub_GetState_err stub _); [done|].
    destruct (stub_state stub !! _) as [v|]; [|done].
    destruct (Split_head (string_of_bytes v)) as (r' & t' & Hs' & Hr').
    rewrite Hs'. cbn. intros [= <- _]. eauto.
  - intros s Hnil. destruct (Split_nonempty s ":") as (r & t & Hs). congruence.
  - intros stub namespace id a b field2 Hfree Hput Hget.
    destruct (addRecord stub [namespace; id; a +:+ ":" +:+ b; field2])
      as [o stub1] eqn:Hadd.
    pose proof Hadd as Hadd'. rewrite addRecord_eq in Hadd'; cbv zeta in Hadd'.
    rewrite Hput in Hadd'. injection Hadd' as <- Hstub1.
    destruct (addRecord_ok _ _ _ _ _ _ _ Hadd) as (_ & Hst & Hg & _).
    rewrite <- Hg in Hget.
    destruct (getRecord_stored _ _ _ _ Hget Hst) as (r & t & Hs & Hrec).
    rewrite string_of_bytes_of_string in Hs. unfold compositeValue in Hs.
    rewrite append_assoc_colon, (append_assoc_colon ":" b) in Hs.
    rewrite (Split_first _ _ Hfree) in Hs. injection Hs as <- _.
    eexists stub1, _. split; [done|]. split; [exact Hrec|].
    intros Heq. rewrite Heq, colon_free_app_colon in Hfree. done.
Qed.

End ReadPath.

(** ** The encrypted record adapter and the dispatcher: properties *)

Section AdapterProperties.

Context `{Entities}.
Variable NotFoundError : error.

Lemma Encrypter_eq t stub namespace id field1 field2 encKey iv ent :
  NewAES256EncrypterEntity "ID" (bccspInst t) encKey iv = Val ent ->
  let key := compositeKey namespace id in
  let cleartext := bytes_of_string (compositeValue field1 field2) in
  let stub1 := record_call (CallEncrypt cleartext)
                 (record_call (CallNewEntity encKey iv) stub) in
  Encrypter t stub [namespace; id; field1; field2] encKey iv =
    match Encrypt ent cleartext with
    | Err e =>
        (Returns (EmptyString,
                  Some (Errorf ("encryptAndPutState failed, err "
                                +:+ FormatPlusV e))), stub1)
    | Val ciphertext =>
        let stub2 := record_call (CallPutState key ciphertext) stub1 in
        match stub_PutState_err stub key ciphertext with
        | Some e =>
            (Returns (EmptyString,
                      Some (Errorf ("encryptAndPutState failed, err "
                                    +:+ FormatPlusV e))), stub2)
        | None =>
            (Returns (compositeValue field1 field2, None),
             set_state (<[key := ciphertext]> (stub_state stub)) stub2)
        end
    end.
Proof.
  intros Hnew. unfold Encrypter, newEntity. rewrite Hnew.
  cbn [length Nat.eqb negb obind index lookup list_lookup].
  unfold encryptAndPutState, entEncrypt, PutState, compositeKey, compositeValue.
  destruct (Encrypt ent _) as [ciphertext|e]; [|done].
  cbn [record_call stub_PutState_err stub_state].
  by destruct (stub_PutState_err stub _ _).
Qed.

Lemma Decrypter_eq t stub namespace id decKey iv ent :
  NewAES256EncrypterEntity "ID" (bccspInst t) decKey iv = Val ent ->
  let key := compositeKey namespace id in
  let stub1 := record_call (CallGetState key)
                 (record_call (CallNewEntity decKey iv) stub) in
  let failed (e : error) :=
    Returns (EmptyString,
             Some (Errorf ("getStateAndDecrypt failed, err " +:+ FormatPlusV e))) in
  Decrypter NotFoundError t stub [namespace; id] decKey iv =
    match stub_GetState_err stub key with
    | Some e => (failed e, stub1)
    | None =>
        match stub_state stub !! key with
        | None | Some [] => (failed NotFoundError, stub1)
        | Some ciphertext =>
            let stub2 := record_call (CallDecrypt ciphertext) stub1 in
            match Decrypt ent ciphertext with
            | Err e => (failed e, stub2)
            | Val cleartext =>
                obind (index (Split (string_of_bytes cleartext) ":") 0)
                      (fun r0 => (Returns (r0, None), stub2)) stub2
            end
        end
    end.
Proof.
  intros Hnew. unfold Decrypter, newEntity. rewrite Hnew.
  cbn [length Nat.eqb negb obind index lookup list_lookup].
  unfold getStateAndDecrypt, entDecrypt, GetState, compositeKey.
  cbn [record_call stub_GetState_err stub_state].
  destruct (stub_GetState_err stub _); [done|].
  destruct (stub_state stub !! _) as [[|c ct]|]; [done| |done].
  by destruct (Decrypt ent _).
Qed.

(** C2. Encrypted round trip: with a key of the 32 bytes of AES-256, for
    which the cipher builds its entity, a cipher whose [Decrypt] inverts
    its [Encrypt] (with a ciphertext that is not empty, an empty read
    being an absent record), and a ledger whose put and get report no
    fault, [encRecord] succeeds and [decRecord] with the same key and IV
    succeeds and returns [field1] unchanged, when [field1] has no colon. *)
Theorem encRecord_decRecord_roundtrip
    t stub namespace id field1 field2 (key iv : bytes) :
  colon_free field1 = true ->
  length key = 32%nat ->
  (forall k v, length k = 32%nat ->
     exists ent, NewAES256EncrypterEntity "ID" (bccspInst t) k v = Val ent) ->
  (forall ent plaintext,
     NewAES256EncrypterEntity "ID" (bccspInst t) key iv = Val ent ->
     exists ciphertext,
       Encrypt ent plaintext = Val ciphertext /\ ciphertext <> [] /\
       Decrypt ent ciphertext = Val plaintext) ->
  (forall value, stub_PutState_err stub (compositeKey namespace id) value = None) ->
  stub_GetState_err stub (compositeKey namespace id) = None ->
  exists stub1 stub2,
    Encrypter t stub [namespace; id; field1; field2] key iv
      = (Returns (compositeValue field1 field2, None), stub1) /\
    Decrypter NotFoundError t stub1 [namespace; id] key iv
      = (Returns (field1, None), stub2).
Proof.
  intros Hfree Hlen Hnew Hcipher Hput Hget.
  destruct (Hnew key iv Hlen) as [ent Hent].
  destruct (Hcipher ent (bytes_of_string (compositeValue field1 field2)) Hent)
    as (ct & Henc & Hne & Hdec).
  rewrite (Encrypter_eq _ _ _ _ _ _ _ _ _ Hent); cbv zeta.
  rewrite Henc, Hput.
  eexists _, _. split; [reflexivity|].
  rewrite (Decrypter_eq _ _ _ _ _ _ _ Hent); cbv zeta.
  cbn [set_state record_call stub_GetState_err stub_state].
  rewrite Hget, lookup_insert_eq.
  destruct ct as [|c ct]; [done|]. rewrite Hdec.
  rewrite string_of_bytes_of_string. unfold compositeValue.
  rewrite (Split_first _ _ Hfree). reflexivity.
Qed.

(** The dispatcher once the transient map is retrieved. *)
Lemma Invoke_encRecord t stub tMap :
  stub_fn stub = "encRecord" ->
  stub_transient stub = (tMap, None) ->
  Invoke NotFoundError t stub =
    match tMap !! ENCKEY with
    | None =>
        (Returns (shim_Error "Expected transient encryption key ENCKEY"), stub)
    | Some _ =>
        respond (Encrypter t stub (stub_args stub)
                   (tMap_at tMap ENCKEY) (tMap_at tMap IV))
    end.
Proof.
  intros Hfn Htr. unfold Invoke, GetFunctionAndParameters, GetTransient.
  rewrite Hfn, Htr. reflexivity.
Qed.

Lemma Invoke_decRecord t stub tMap :
  stub_fn stub = "decRecord" ->
  stub_transient stub = (tMap, None) ->
  Invoke NotFoundError t stub =
    match tMap !! DECKEY with
    | None =>
        (Returns (shim_Error "Expected transient decryption key DECKEY"), stub)
    | Some _ =>
        respond (Decrypter NotFoundError t stub (stub_args stub)
                   (tMap_at tMap DECKEY) (tMap_at tMap IV))
    end.
Proof.
  intros Hfn Htr. unfold Invoke, GetFunctionAndParameters, GetTransient.
  rewrite Hfn, Htr. reflexivity.
Qed.

(** C3. An [encRecord] whose transient map has no ENCKEY entry, and a
    [decRecord] whose transient map has no DECKEY entry, is answered by
    the dispatcher with the missing-secret error, and the stub is returned
    as it was: the adapter is not entered, and no ledger read, ledger
    write or cipher call is made. *)
Theorem Invoke_missing_secret t stub tMap :
  stub_transient stub = (tMap, None) ->
  (stub_fn stub = "encRecord" -> tMap !! ENCKEY = None ->
   Invoke NotFoundError t stub =
     (Returns (shim_Error "Expected transient encryption key ENCKEY"), stub)) /\
  (stub_fn stub = "decRecord" -> tMap !! DECKEY = None ->
   Invoke NotFoundError t stub =
     (Returns (shim_Error "Expected transient decryption key DECKEY"), stub)).
Proof.
  intros Htr. split; intros Hfn Hkey.
  - by rewrite (Invoke_encRecord _ _ _ Hfn Htr), Hkey.
  - by rewrite (Invoke_decRecord _ _ _ Hfn Htr), Hkey.
Qed.

(** C4, as amended. An [encRecord] with an argument count other than four,
    an ENCKEY entry in the transient map and a key from which the cipher
    builds its entity fails with the argument error of [Encrypter]; the
    only call made is the construction of the entity.  When the entity
    cannot be built, the construction error is the answer, whatever the
    argument count. *)
Theorem encRecord_arity t stub tMap encKey :
  stub_fn stub = "encRecord" ->
  stub_transient stub = (tMap, None) ->
  tMap !! ENCKEY = Some encKey ->
  let stub1 := record_call (CallNewEntity encKey (tMap_at tMap IV)) stub in
  (forall ent,
     NewAES256EncrypterEntity "ID" (bccspInst t) encKey (tMap_at tMap IV) = Val ent ->
     length (stub_args stub) <> 4%nat ->
     Invoke NotFoundError t stub =
       (Returns (shim_Error "Expected 4 parameters to function Encrypter"), stub1)) /\
  (forall e,
     NewAES256EncrypterEntity "ID" (bccspInst t) encKey (tMap_at tMap IV) = Err e ->
     Invoke NotFoundError t stub =
       (Returns (shim_Error ("entities.NewAES256EncrypterEntity failed, err "
                             +:+ Error e)), stub1)).
Proof.
  intros Hfn Htr Hkey stub1.
  rewrite (Invoke_encRecord _ _ _ Hfn Htr), Hkey.
  replace (tMap_at tMap ENCKEY) with encKey by (unfold tMap_at; by rewrite Hkey).
  unfold Encrypter, newEntity. split.
  - intros ent -> Hlen.
    by destruct (Nat.eqb_spec (length (stub_args stub)) 4).
  - by intros e ->.
Qed.

(** C6. On a ledger whose read reports no fault, for a Composite Key that
    is not in the world state, [getRecord] fails with its not-found error,
    and [decRecord], with a key from which the cipher builds its entity,
    fails with the not-found error of its read helper. *)
Theorem getRecord_decRecord_not_found t stub namespace id :
  stub_state stub !! compositeKey namespace id = None ->
  stub_GetState_err stub (compositeKey namespace id) = None ->
  (exists stub1,
     getRecord stub [namespace; id] =
       (Returns (EmptyString,
                 Some (Errorf ("Asset not found: " +:+ namespace))), stub1)) /\
  (forall decKey iv ent,
     NewAES256EncrypterEntity "ID" (bccspInst t) decKey iv = Val ent ->
     exists stub1,
       Decrypter NotFoundError t stub [namespace; id] decKey iv =
         (Returns (EmptyString,
                   Some (Errorf ("getStateAndDecrypt failed, err "
                                 +:+ FormatPlusV NotFoundError))), stub1)).
Proof.
  intros Hst Hget. split.
  - rewrite getRecord_eq; cbv zeta. rewrite Hget, Hst. eauto.
  - intros decKey iv ent Hent.
    rewrite (Decrypter_eq _ _ _ _ _ _ _ Hent); cbv zeta.
    rewrite Hget, Hst. eauto.
Qed.

(** C9. When the transient map cannot be retrieved, the dispatcher fails
    at once, whatever the function name and the arguments ([addRecord] and
    [getRecord] included), and the stub is returned as it was: no ledger
    read or write is made. *)
Theorem Invoke_transient_failure t stub tMap e :
  stub_transient stub = (tMap, Some e) ->
  Invoke NotFoundError t stub =
    (Returns (shim_Error ("Could not retrieve transient, err " +:+ Error e)),
     stub).
Proof.
  intros Htr. unfold Invoke, GetFunctionAndParameters, GetTransient.
  by rewrite Htr.
Qed.

End AdapterProperties.

(** ** The properties on concrete runs *)

Section TestCipherFacts.

Lemma TestCipher_new_ok (k v : bytes) :
  length k = 32%nat ->
  exists ent, @NewAES256EncrypterEntity TestCipher.entities "ID" tt k v = Val ent.
Proof.
  intros Hlen. exists (k, v). cbn. unfold TestCipher.new. by rewrite Hlen.
Qed.

Lemma TestCipher_inverts (ent : bytes * bytes) (plaintext : bytes) :
  exists ciphertext,
    @Encrypt TestCipher.entities ent plaintext = Val ciphertext /\
    ciphertext <> [] /\
    @Decrypt TestCipher.entities ent ciphertext = Val plaintext.
Proof.
  exists (TestCipher.tag ent :: rev plaintext). split; [done|]. split; [done|].
  cbn. rewrite Byte.byte_dec_lb by reflexivity. by rewrite rev_involutive.
Qed.

End TestCipherFacts.

(** The two scenarios of the specification, through the dispatcher. *)
Example Invoke_addRecord_then_getRecord :
  let '(r1, stub1) :=
    Invoke TestCipher.notFound TestCipher.asset
           (proposal "addRecord" ["acct"; "7"; "alice"; "100"] ∅ ∅) in
  let '(r2, _) :=
    Invoke TestCipher.notFound TestCipher.asset
           (proposal "getRecord" ["acct"; "7"] ∅ (stub_state stub1)) in
  r1 = Returns (shim_Success (Some (bytes_of_string "alice:100"))) /\
  r2 = Returns (shim_Success (Some (bytes_of_string "alice"))).
Proof. vm_compute. split; reflexivity. Qed.

Example Invoke_encRecord_then_decRecord :
  let '(r1, stub1) :=
    Invoke TestCipher.notFound TestCipher.asset
           (proposal "encRecord" ["acct"; "8"; "bob"; "50"]
                     (bundle_iv ENCKEY TestCipher.key32 TestCipher.iv16) ∅) in
  let '(r2, _) :=
    Invoke TestCipher.notFound TestCipher.asset
           (proposal "decRecord" ["acct"; "8"]
                     (bundle_iv DECKEY TestCipher.key32 TestCipher.iv16)
                     (stub_state stub1)) in
  r1 = Returns (shim_Success (Some (bytes_of_string "bob:50"))) /\
  stub_state stub1 !! "acct:8" <> Some (bytes_of_string "bob:50") /\
  r2 = Returns (shim_Success (Some (bytes_of_string "bob"))).
Proof. vm_compute. split; [reflexivity|]. split; [discriminate|reflexivity]. Qed.

Lemma addRecord_getRecord_roundtrip_witness :
  colon_free "alice" = true /\
  exists stub1 stub2,
    addRecord (proposal "addRecord" ["acct"; "7"; "alice"; "100"] ∅ ∅)
              ["acct"; "7"; "alice"; "100"]
      = (Returns ("alice:100", None), stub1) /\
    getRecord stub1 ["acct"; "7"] = (Returns ("alice", None), stub2).
Proof.
  split; [reflexivity|].
  apply (addRecord_getRecord_roundtrip
           (proposal "addRecord" ["acct"; "7"; "alice"; "100"] ∅ ∅)
           "acct" "7" "alice" "100"); reflexivity.
Defined.

Lemma encRecord_decRecord_roundtrip_witness :
  length TestCipher.key32 = 32%nat /\
  exists stub1 stub2,
    Encrypter TestCipher.asset
              (proposal "encRecord" ["acct"; "8"; "bob"; "50"]
                        (bundle_iv ENCKEY TestCipher.key32 TestCipher.iv16) ∅)
              ["acct"; "8"; "bob"; "50"] TestCipher.key32 TestCipher.iv16
      = (Returns ("bob:50", None), stub1) /\
    Decrypter TestCipher.notFound TestCipher.asset stub1 ["acct"; "8"]
              TestCipher.key32 TestCipher.iv16
      = (Returns ("bob", None), stub2).
Proof.
  split; [reflexivity|].
  apply (@encRecord_decRecord_roundtrip TestCipher.entities TestCipher.notFound
           TestCipher.asset
           (proposal "encRecord" ["acct"; "8"; "bob"; "50"]
                     (bundle_iv ENCKEY TestCipher.key32 TestCipher.iv16) ∅)
           "acct" "8" "bob" "50" TestCipher.key32 TestCipher.iv16).
  - reflexivity.
  - reflexivity.
  - intros k v Hlen. exact (TestCipher_new_ok k v Hlen).
  - intros ent plaintext _. exact (TestCipher_inverts ent plaintext).
  - reflexivity.
  - reflexivity.
Defined.

Lemma Invoke_missing_secret_witness :
  Invoke TestCipher.notFound TestCipher.asset
         (proposal "encRecord" ["acct"; "8"; "bob"; "50"] ∅ ∅)
    = (Returns (shim_Error "Expected transient encryption key ENCKEY"),
       proposal "encRecord" ["acct"; "8"; "bob"; "50"] ∅ ∅) /\
  Invoke TestCipher.notFound TestCipher.asset
         (proposal "decRecord" ["acct"; "8"] (bundle ENCKEY TestCipher.key32) ∅)
    = (Returns (shim_Error "Expected transient decryption key DECKEY"),
       proposal "decRecord" ["acct"; "8"] (bundle ENCKEY TestCipher.key32) ∅).
Proof.
  split.
  - apply (proj1 (@Invoke_missing_secret TestCipher.entities TestCipher.notFound
                    TestCipher.asset
                    (proposal "encRecord" ["acct"; "8"; "bob"; "50"] ∅ ∅)
                    ∅ eq_refl)); reflexivity.
  - apply (proj2 (@Invoke_missing_secret TestCipher.entities TestCipher.notFound
                    TestCipher.asset
                    (proposal "decRecord" ["acct"; "8"]
                              (bundle ENCKEY TestCipher.key32) ∅)
                    (bundle ENCKEY TestCipher.key32) eq_refl));
      [reflexivity|vm_compute; reflexivity].
Defined.

(** C4 as stated fails: with an ENCKEY entry of one byte, an [encRecord]
    of three arguments is answered with the error of the entity
    construction, which comes before the argument check. *)
Lemma encRecord_arity_after_entity :
  let stub := proposal "encRecord" ["acct"; "8"; "bob"]
                       (bundle ENCKEY TestCipher.key1) ∅ in
  stub_fn stub = "encRecord" /\
  length (stub_args stub) <> 4%nat /\
  (stub_transient stub).1 !! ENCKEY = Some TestCipher.key1 /\
  (Invoke TestCipher.notFound TestCipher.asset stub).1
    = Returns (shim_Error
        "entities.NewAES256EncrypterEntity failed, err Invalid Key Length") /\
  (Invoke TestCipher.notFound TestCipher.asset stub).1
    <> Returns (shim_Error "Expected 4 parameters to function Encrypter").
Proof.
  cbv zeta. split; [reflexivity|]. split; [cbn; lia|].
  split; [vm_compute; reflexivity|].
  split; [vm_compute; reflexivity|].
  vm_compute. discriminate.
Qed.

Lemma encRecord_arity_witness :
  Invoke TestCipher.notFound TestCipher.asset
         (proposal "encRecord" ["acct"; "8"; "bob"]
                   (bundle ENCKEY TestCipher.key32) ∅)
    = (Returns (shim_Error "Expected 4 parameters to function Encrypter"),
       record_call (CallNewEntity TestCipher.key32 [])
         (proposal "encRecord" ["acct"; "8"; "bob"]
                   (bundle ENCKEY TestCipher.key32) ∅)).
Proof.
  apply (proj1 (@encRecord_arity TestCipher.entities TestCipher.notFound
                  TestCipher.asset
                  (proposal "encRecord" ["acct"; "8"; "bob"]
                            (bundle ENCKEY TestCipher.key32) ∅)
                  (bundle ENCKEY TestCipher.key32) TestCipher.key32
                  eq_refl eq_refl ltac:(vm_compute; reflexivity))
               (TestCipher.key32, [])).
  - vm_compute; reflexivity.
  - cbn; lia.
Defined.

(** C5 as stated fails: the message of the write error names the
    namespace, and the id does not occur in it. *)
Lemma addRecord_put_fault_omits_id :
  exists stub1,
    addRecord (proposal_put_fault "addRecord" ["acct"; "7"; "alice"; "100"] ∅ ∅)
              ["acct"; "7"; "alice"; "100"]
      = (Returns (EmptyString, Some (Errorf "Failed to set asset: acct")), stub1) /\
    Contains (Error (Errorf "Failed to set asset: acct")) "7" = false.
Proof.
  eexists. split; [vm_compute; reflexivity|]. vm_compute; reflexivity.
Qed.

Lemma addRecord_put_fault_witness :
  exists stub1,
    addRecord (proposal_put_fault "addRecord" ["acct"; "7"; "alice"; "100"] ∅ ∅)
              ["acct"; "7"; "alice"; "100"]
      = (Returns (EmptyString, Some (Errorf "Failed to set asset: acct")), stub1) /\
    stub_state stub1 = ∅.
Proof.
  apply (addRecord_put_fault
           (proposal_put_fault "addRecord" ["acct"; "7"; "alice"; "100"] ∅ ∅)
           "acct" "7" "alice" "100" (Errorf "write fault")).
  reflexivity.
Defined.

Lemma getRecord_decRecord_not_found_witness :
  (exists stub1,
     getRecord (proposal "getRecord" ["acct"; "7"] ∅ ∅) ["acct"; "7"] =
       (Returns (EmptyString, Some (Errorf "Asset not found: acct")), stub1)) /\
  (exists stub1,
     Decrypter TestCipher.notFound TestCipher.asset
               (proposal "getRecord" ["acct"; "7"] ∅ ∅) ["acct"; "7"]
               TestCipher.key32 TestCipher.iv16 =
       (Returns (EmptyString,
                 Some (Errorf
                   "getStateAndDecrypt failed, err no ciphertext to decrypt")),
        stub1)).
Proof.
  pose proof (@getRecord_decRecord_not_found TestCipher.entities
                TestCipher.notFound TestCipher.asset
                (proposal "getRecord" ["acct"; "7"] ∅ ∅) "acct" "7"
                (lookup_empty _) eq_refl) as [Hget Hdec].
  split; [exact Hget|].
  exact (Hdec TestCipher.key32 TestCipher.iv16
              (TestCipher.key32, TestCipher.iv16) eq_refl).
Defined.

(** C7 as stated fails: when the first field of the second value has a
    colon, [getRecord] returns its part before the colon, not the field. *)
Lemma addRecord_twice_colon_in_field1 :
  exists stub1 stub2 stub3,
    addRecord (proposal "addRecord" ["acct"; "7"; "alice"; "100"] ∅ ∅)
              ["acct"; "7"; "alice"; "100"]
      = (Returns ("alice:100", None), stub1) /\
    addRecord stub1 ["acct"; "7"; "b:c"; "1"] = (Returns ("b:c:1", None), stub2) /\
    getRecord stub2 ["acct"; "7"] = (Returns ("b", None), stub3) /\
    "b" <> "b:c".
Proof.
  do 3 eexists. split; [vm_compute; reflexivity|].
  split; [vm_compute; reflexivity|].
  split; [vm_compute; reflexivity|discriminate].
Qed.

Lemma addRecord_twice_last_writer_wins_witness :
  let stub := proposal "addRecord" ["acct"; "7"; "alice"; "100"] ∅ ∅ in
  let stub1 := (addRecord stub ["acct"; "7"; "alice"; "100"]).2 in
  let stub2 := (addRecord stub1 ["acct"; "7"; "bob"; "50"]).2 in
  stub_state stub2 !! "acct:7" = Some (bytes_of_string "bob:50") /\
  (stub_GetState_err stub2 "acct:7" = None ->
   exists r stub3,
     getRecord stub2 ["acct"; "7"] = (Returns (r, None), stub3) /\
     before_first_colon r "bob" /\
     (colon_free "bob" = true -> r = "bob")).
Proof.
  intros stub stub1 stub2.
  apply (addRecord_twice_last_writer_wins stub stub1 stub2
           "acct" "7" "alice" "100" "bob" "50" "alice:100" "bob:50");
    reflexivity.
Defined.

Lemma addRecord_arity_witness :
  addRecord (proposal "addRecord" ["acct"; "7"; "alice"] ∅ ∅)
            ["acct"; "7"; "alice"]
    = (Returns (EmptyString,
                Some (Errorf "Incorrect arguments. Expecting a key and a value")),
       proposal "addRecord" ["acct"; "7"; "alice"] ∅ ∅) /\
  addRecord (proposal "addRecord" ["acct"; "7"; "alice"; "100"; "x"] ∅ ∅)
            ["acct"; "7"; "alice"; "100"; "x"]
    = (Returns (EmptyString,
                Some (Errorf "Incorrect arguments. Expecting a key and a value")),
       proposal "addRecord" ["acct"; "7"; "alice"; "100"; "x"] ∅ ∅).
Proof.
  split; apply addRecord_arity; cbn; lia.
Defined.

Lemma Invoke_transient_failure_witness :
  Invoke TestCipher.notFound TestCipher.asset
         (proposal_no_transient "addRecord" ["acct"; "7"; "alice"; "100"] ∅)
    = (Returns (shim_Error "Could not retrieve transient, err transient fault"),
       proposal_no_transient "addRecord" ["acct"; "7"; "alice"; "100"] ∅).
Proof.
  apply (@Invoke_transient_failure TestCipher.entities TestCipher.notFound
           TestCipher.asset
           (proposal_no_transient "addRecord" ["acct"; "7"; "alice"; "100"] ∅)
           ∅ (Errorf "transient fault")).
  reflexivity.
Defined.

Lemma getRecord_returns_prefix_before_first_colon_witness :
  colon_free "b" = true /\
  exists stub1 stub2,
    addRecord (proposal "addRecord" ["acct"; "7"; "b:c"; "1"] ∅ ∅)
              ["acct"; "7"; "b:c"; "1"]
      = (Returns ("b:c:1", None), stub1) /\
    getRecord stub1 ["acct"; "7"] = (Returns ("b", None), stub2) /\
    "b" <> "b:c".
Proof.
  split; [reflexivity|].
  apply (proj2 (proj2 (proj2 getRecord_returns_prefix_before_first_colon))
           (proposal "addRecord" ["acct"; "7"; "b:c"; "1"] ∅ ∅)
           "acct" "7" "b" "c" "1"); reflexivity.
Defined.

(** ** Further properties of the record store *)

Section RecordStoreOutcomes.

Lemma length_2_inv {A} (l : list A) :
  length l = 2%nat -> exists a b, l = [a; b].
Proof. destruct l as [|a [|b [|]]]; intros; try discriminate; eauto. Qed.

Lemma length_4_inv {A} (l : list A) :
  length l = 4%nat -> exists a b c d, l = [a; b; c; d].
Proof.
  destruct l as [|a [|b [|c [|d [|]]]]]; intros; try discriminate.
  by exists a, b, c, d.
Qed.

Lemma addRecord_one_put stub args : one_put stub (addRecord stub args).
Proof.
  destruct (Nat.eq_dec (length args) 4) as [Hlen|Hlen].
  - destruct (length_4_inv _ Hlen) as (a0 & a1 & a2 & a3 & ->).
    rewrite addRecord_eq; cbv zeta.
    destruct (stub_PutState_err stub _ _); eexists _, _, _;
      (split; [reflexivity|]); cbn; split; eauto.
    by intros [? ?].
  - unfold addRecord. destruct (Nat.eqb_spec (length args) 4); [done|].
    eexists _, _, _. split; [reflexivity|]. eauto.
Qed.

Lemma getRecord_keeps_state stub args :
  exists r err stub',
    getRecord stub args = (Returns (r, err), stub') /\
    stub_state stub' = stub_state stub.
Proof.
  destruct (Nat.eq_dec (length args) 2) as [Hlen|Hlen].
  - destruct (length_2_inv _ Hlen) as (a0 & a1 & ->).
    rewrite getRecord_eq; cbv zeta.
    destruct (stub_GetState_err stub _); [by eexists _, _, _|].
    destruct (stub_state stub !! _) as [v|]; [|by eexists _, _, _].
    destruct (Split_nonempty (string_of_bytes v) ":") as (r & t & ->).
    by eexists _, _, _.
  - unfold getRecord. destruct (Nat.eqb_spec (length args) 2); [done|].
    by eexists _, _, _.
Qed.

Lemma getRecord_state_kept stub args :
  stub_state (getRecord stub args).2 = stub_state stub.
Proof.
  by destruct (getRecord_keeps_state stub args) as (r & err & stub' & -> & Hst).
Qed.

Lemma getRecord_one_put stub args : one_put stub (getRecord stub args).
Proof.
  destruct (getRecord_keeps_state stub args) as (r & err & stub' & -> & Hst).
  exists r, err, stub'. eauto.
Qed.

(** X2. A [getRecord] with an argument count other than two fails with
    its argument error, and the stub is returned as it was: the ledger is
    not read. *)
Theorem getRecord_arity stub args :
  length args <> 2%nat ->
  getRecord stub args =
    (Returns (EmptyString, Some (Errorf "Incorrect arguments. Expecting a key")),
     stub).
Proof.
  intros Hlen. unfold getRecord.
  by destruct (Nat.eqb_spec (length args) 2).
Qed.

(** X3. When the ledger read of a two-argument [getRecord] reports a
    fault, [getRecord] fails with the read error, which names the
    namespace and carries the text of the ledger's error, whether or not
    a record is stored at the key; the world state is unchanged. *)
Theorem getRecord_read_fault stub namespace id e :
  stub_GetState_err stub (compositeKey namespace id) = Some e ->
  exists stub1,
    getRecord stub [namespace; id] =
      (Returns (EmptyString,
                Some (Errorf ("Failed to get asset: " +:+ namespace +:+
                              " with error: " +:+ Error e))), stub1) /\
    stub_state stub1 = stub_state stub.
Proof.
  intros Hget. rewrite getRecord_eq; cbv zeta. rewrite Hget. eauto.
Qed.

(** X8. [getRecord] never changes the world state, whatever its arguments
    and whatever the ledger answers. *)
Theorem getRecord_read_only stub args :
  stub_state (getRecord stub args).2 = stub_state stub.
Proof.
  by destruct (getRecord_keeps_state stub args) as (r & err & stub' & -> & Hst).
Qed.

End RecordStoreOutcomes.

(** ** Further properties of the adapter and of the dispatcher *)

Section DispatcherOutcomes.

Context `{Entities}.
Variable NotFoundError : error.

Lemma Encrypter_one_put t stub args encKey iv :
  one_put stub (Encrypter t stub args encKey iv).
Proof.
  destruct (NewAES256EncrypterEntity "ID" (bccspInst t) encKey iv)
    as [ent|e] eqn:Hent.
  - destruct (Nat.eq_dec (length args) 4) as [Hlen|Hlen].
    + destruct (length_4_inv _ Hlen) as (a0 & a1 & a2 & a3 & ->).
      rewrite (Encrypter_eq _ _ _ _ _ _ _ _ _ Hent); cbv zeta.
      destruct (Encrypt ent _) as [ciphertext|e];
        [destruct (stub_PutState_err stub _ _)|];
        eexists _, _, _; (split; [reflexivity|]); cbn; split; eauto.
      by intros [? ?].
    + unfold Encrypter, newEntity. rewrite Hent.
      destruct (Nat.eqb_spec (length args) 4); [done|].
      eexists _, _, _. split; [reflexivity|]. cbn. eauto.
  - unfold Encrypter, newEntity. rewrite Hent.
    eexists _, _, _. split; [reflexivity|]. cbn. eauto.
Qed.

Lemma Decrypter_keeps_state t stub args decKey iv :
  exists r err stub',
    Decrypter NotFoundError t stub args decKey iv = (Returns (r, err), stub') /\
    stub_state stub' = stub_state stub.
Proof.
  destruct (NewAES256EncrypterEntity "ID" (bccspInst t) decKey iv)
    as [ent|e] eqn:Hent.
  - destruct (Nat.eq_dec (length args) 2) as [Hlen|Hlen].
    + destruct (length_2_inv _ Hlen) as (a0 & a1 & ->).
      rewrite (Decrypter_eq _ _ _ _ _ _ _ _ Hent); cbv zeta.
      destruct (stub_GetState_err stub _); [by eexists _, _, _|].
      destruct (stub_state stub !! _) as [[|c ct]|]; [by eexists _, _, _| |by eexists _, _, _].
      destruct (Decrypt ent _) as [cleartext|e]; [|by eexists _, _, _].
      destruct (Split_nonempty (string_of_bytes cleartext) ":") as (r & t' & ->).
      by eexists _, _, _.
    + unfold Decrypter, newEntity. rewrite Hent.
      destruct (Nat.eqb_spec (length args) 2); [done|].
      by eexists _, _, _.
  - unfold Decrypter, newEntity. rewrite Hent. by eexists _, _, _.
Qed.

Lemma Decrypter_one_put t stub args decKey iv :
  one_put stub (Decrypter NotFoundError t stub args decKey iv).
Proof.
  destruct (Decrypter_keeps_state t stub args decKey iv)
    as (r & err & stub' & -> & Hst).
  exists r, err, stub'. eauto.
Qed.

(** The answer of the dispatcher to a run of an operation. *)
Lemma respond_one_put stub run :
  one_put stub run ->
  exists resp stub',
    respond run = (Returns resp, stub') /\
    ((Status resp = 500%Z /\ stub_state stub' = stub_state stub) \/
     (Status resp = 200%Z /\
      (stub_state stub' = stub_state stub \/
       exists key value, stub_state stub' = <[key := value]> (stub_state stub)))).
Proof.
  intros (r & [e|] & stub' & -> & Herr & Hput); eexists _, _;
    (split; [reflexivity|]); cbn; eauto.
Qed.

Lemma Invoke_outcome t stub :
  exists resp stub',
    Invoke NotFoundError t stub = (Returns resp, stub') /\
    ((Status resp = 500%Z /\ stub_state stub' = stub_state stub) \/
     (Status resp = 200%Z /\
      (stub_state stub' = stub_state stub \/
       exists key value, stub_state stub' = <[key := value]> (stub_state stub)))).
Proof.
  unfold Invoke, GetFunctionAndParameters, GetTransient.
  destruct (stub_transient stub) as [tMap [e|]]; [by eexists _, _; eauto|].
  destruct (String.eqb (stub_fn stub) "addRecord");
    [apply respond_one_put, addRecord_one_put|].
  destruct (String.eqb (stub_fn stub) "getRecord");
    [apply respond_one_put, getRecord_one_put|].
  destruct (String.eqb (stub_fn stub) "encRecord").
  { destruct (tMap !! ENCKEY); [apply respond_one_put, Encrypter_one_put|].
    eexists _, _; eauto. }
  destruct (String.eqb (stub_fn stub) "decRecord").
  { destruct (tMap !! DECKEY); [apply respond_one_put, Decrypter_one_put|].
    eexists _, _; eauto. }
  eexists _, _; eauto.
Qed.

(** X1. With the transient map retrieved, a function name other than the
    four operation names is answered with the unsupported-function error,
    which carries the name; the stub is returned as it was. *)
Theorem Invoke_unsupported_function t stub tMap :
  stub_transient stub = (tMap, None) ->
  stub_fn stub <> "addRecord" ->
  stub_fn stub <> "getRecord" ->
  stub_fn stub <> "encRecord" ->
  stub_fn stub <> "decRecord" ->
  Invoke NotFoundError t stub =
    (Returns (shim_Error ("Unsupported function " +:+ stub_fn stub)), stub).
Proof.
  intros Htr Hadd Hget Henc Hdec.
  unfold Invoke, GetFunctionAndParameters, GetTransient. rewrite Htr.
  destruct (String.eqb_spec (stub_fn stub) "addRecord"); [done|].
  destruct (String.eqb_spec (stub_fn stub) "getRecord"); [done|].
  destruct (String.eqb_spec (stub_fn stub) "encRecord"); [done|].
  by destruct (String.eqb_spec (stub_fn stub) "decRecord").
Qed.

(** X4. A [decRecord] with an argument count other than two, a DECKEY
    entry in the transient map and a key from which the cipher builds its
    entity fails with the argument error of [Decrypter]; the only call
    made is the construction of the entity, and the ledger is not read.
    When the entity cannot be built, the construction error is the
    answer, whatever the argument count. *)
Theorem decRecord_arity t stub tMap decKey :
  stub_fn stub = "decRecord" ->
  stub_transient stub = (tMap, None) ->
  tMap !! DECKEY = Some decKey ->
  let stub1 := record_call (CallNewEntity decKey (tMap_at tMap IV)) stub in
  (forall ent,
     NewAES256EncrypterEntity "ID" (bccspInst t) decKey (tMap_at tMap IV) = Val ent ->
     length (stub_args stub) <> 2%nat ->
     Invoke NotFoundError t stub =
       (Returns (shim_Error "Expected 2 parameters to function Decrypter"), stub1)) /\
  (forall e,
     NewAES256EncrypterEntity "ID" (bccspInst t) decKey (tMap_at tMap IV) = Err e ->
     Invoke NotFoundError t stub =
       (Returns (shim_Error ("entities.NewAES256EncrypterEntity failed, err "
                             +:+ Error e)), stub1)).
Proof.
  intros Hfn Htr Hkey stub1.
  rewrite (Invoke_decRecord _ _ _ _ Hfn Htr), Hkey.
  replace (tMap_at tMap DECKEY) with decKey by (unfold tMap_at; by rewrite Hkey).
  unfold Decrypter, newEntity. split.
  - intros ent -> Hlen.
    by destruct (Nat.eqb_spec (length (stub_args stub)) 2).
  - by intros e ->.
Qed.

(** X6. The dispatcher never panics: for every stub it returns a response,
    whose status is 200 or 500. *)
Theorem Invoke_never_panics t stub :
  exists resp stub',
    Invoke NotFoundError t stub = (Returns resp, stub') /\
    (Status resp = 200%Z \/ Status resp = 500%Z).
Proof.
  destruct (Invoke_outcome t stub) as (resp & stub' & HI & [[Hs _]|[Hs _]]);
    eauto 6.
Qed.


(** X9. No invocation removes a record: a key that is in the world state
    before an invocation is in it afterwards. *)
Theorem Invoke_keeps_keys t stub key :
  is_Some (stub_state stub !! key) ->
  is_Some (stub_state (Invoke NotFoundError t stub).2 !! key).
Proof.
  intros Hkey.
  destruct (Invoke_outcome t stub) as (resp & stub' & -> & Hcase). cbn.
  assert (stub_state stub' = stub_state stub \/
          exists k v, stub_state stub' = <[k := v]> (stub_state stub))
    as [->|(k & v & ->)] by (destruct Hcase as [[_ ?]|[_ ?]]; eauto).
  - done.
  - rewrite lookup_insert_is_Some. destruct (decide (k = key)); eauto.
Qed.


End DispatcherOutcomes.

(** ** Keys, values and how the operations compose *)

Section Composition.

Lemma compositeKey_inj namespace id namespace' id' :
  colon_free namespace = true ->
  colon_free namespace' = true ->
  compositeKey namespace id = compositeKey namespace' id' ->
  namespace = namespace' /\ id = id'.
Proof.
  intros Hns Hns' Hkey.
  assert (Split (compositeKey namespace id) ":"
          = Split (compositeKey namespace' id') ":") as Hs by congruence.
  unfold compositeKey in *. rewrite !Split_first in Hs by done.
  injection Hs as -> _. split; [done|].
  apply (inj (String.append namespace')) in Hkey.
  by apply (inj (String.append ":")) in Hkey.
Qed.

Lemma compositeKey_shift a b c :
  compositeKey (a +:+ ":" +:+ b) c = compositeKey a (b +:+ ":" +:+ c).
Proof.
  unfold compositeKey.
  by rewrite append_assoc_colon, (append_assoc_colon ":" b).
Qed.

Lemma addRecord_state stub namespace id field1 field2 r stub1 :
  addRecord stub [namespace; id; field1; field2] = (Returns (r, None), stub1) ->
  stub_state stub1 =
    <[compositeKey namespace id := bytes_of_string (compositeValue field1 field2)]>
      (stub_state stub).
Proof.
  rewrite addRecord_eq; cbv zeta.
  destruct (stub_PutState_err stub _ _); [done|]. by intros [= <- <-].
Qed.

(** What [getRecord] answers is fixed by the read fault and the entry at
    the key. *)
Lemma getRecord_same stub stub' namespace id :
  stub_GetState_err stub' = stub_GetState_err stub ->
  stub_state stub' !! compositeKey namespace id
    = stub_state stub !! compositeKey namespace id ->
  (getRecord stub' [namespace; id]).1 = (getRecord stub [namespace; id]).1.
Proof.
  intros Herr Hst. rewrite !getRecord_eq; cbv zeta. rewrite Herr, Hst.
  destruct (stub_GetState_err stub _); [done|].
  destruct (stub_state stub !! _) as [v|]; [|done].
  by destruct (Split_nonempty (string_of_bytes v) ":") as (r & t & ->).
Qed.

(** X11. Colons move between the components of a key: a record added
    under the namespace [a:b] and the id [c] is the record that
    [getRecord] reads under the namespace [a] and the id [b:c]. *)
Theorem addRecord_getRecord_shifted_colon stub a b c field1 field2 :
  stub_PutState_err stub (compositeKey (a +:+ ":" +:+ b) c)
    (bytes_of_string (compositeValue field1 field2)) = None ->
  stub_GetState_err stub (compositeKey a (b +:+ ":" +:+ c)) = None ->
  exists stub1 stub2 r,
    addRecord stub [a +:+ ":" +:+ b; c; field1; field2]
      = (Returns (compositeValue field1 field2, None), stub1) /\
    getRecord stub1 [a; b +:+ ":" +:+ c] = (Returns (r, None), stub2) /\
    before_first_colon r field1.
Proof.
  intros Hput Hget.
  destruct (addRecord stub [a +:+ ":" +:+ b; c; field1; field2])
    as [o stub1] eqn:Hadd.
  pose proof Hadd as Hadd'. rewrite addRecord_eq in Hadd'; cbv zeta in Hadd'.
  rewrite Hput in Hadd'. injection Hadd' as <- Hstub1.
  destruct (addRecord_ok _ _ _ _ _ _ _ Hadd) as (_ & Hst & Hg & _).
  rewrite compositeKey_shift in Hst. rewrite <- Hg in Hget.
  destruct (getRecord_stored _ _ _ _ Hget Hst) as (r & t & Hs & Hrec).
  rewrite string_of_bytes_of_string in Hs.
  destruct (Split_compositeValue field1 field2) as (r' & t' & Hs' & Hr').
  rewrite Hs in Hs'. injection Hs' as -> ->.
  eexists stub1, _, r'. split; [done|]. split; [exact Hrec|done].
Qed.

(** X12. Records under different keys do not touch each other when the
    namespaces have no colon: an [addRecord] under (namespace, id) leaves
    the entry of any other pair (namespace', id') as it was, and with it
    what [getRecord] answers for that pair. *)
Theorem addRecord_other_key stub namespace id field1 field2 namespace' id' :
  colon_free namespace = true ->
  colon_free namespace' = true ->
  (namespace, id) <> (namespace', id') ->
  let stub1 := (addRecord stub [namespace; id; field1; field2]).2 in
  stub_state stub1 !! compositeKey namespace' id'
    = stub_state stub !! compositeKey namespace' id' /\
  (getRecord stub1 [namespace'; id']).1 = (getRecord stub [namespace'; id']).1.
Proof.
  intros Hns Hns' Hne stub1.
  assert (compositeKey namespace id <> compositeKey namespace' id') as Hkey.
  { intros Heq. destruct (compositeKey_inj _ _ _ _ Hns Hns' Heq). congruence. }
  assert (stub_GetState_err stub1 = stub_GetState_err stub /\
          stub_state stub1 !! compositeKey namespace' id'
            = stub_state stub !! compositeKey namespace' id') as [Herr Hst].
  { subst stub1. rewrite addRecord_eq; cbv zeta.
    destruct (stub_PutState_err stub _ _); cbn; [done|].
    by rewrite lookup_insert_ne. }
  split; [done|]. by apply getRecord_same.
Qed.

(** X13. The second field never reaches the reader: after a successful
    [addRecord], what [getRecord] answers does not depend on the second
    field that was stored. *)
Theorem getRecord_ignores_field2
    stub namespace id field1 field2 field2' r r' stub1 stub1' :
  addRecord stub [namespace; id; field1; field2] = (Returns (r, None), stub1) ->
  addRecord stub [namespace; id; field1; field2'] = (Returns (r', None), stub1') ->
  (getRecord stub1 [namespace; id]).1 = (getRecord stub1' [namespace; id]).1.
Proof.
  intros Hadd Hadd'.
  destruct (addRecord_ok _ _ _ _ _ _ _ Hadd) as (_ & Hst & Hg & _).
  destruct (addRecord_ok _ _ _ _ _ _ _ Hadd') as (_ & Hst' & Hg' & _).
  rewrite !getRecord_eq; cbv zeta. rewrite Hg, Hg', Hst, Hst'.
  destruct (stub_GetState_err stub _); [done|].
  rewrite !string_of_bytes_of_string.
  destruct (Split_compositeValue field1 field2) as (h & t & -> & Hh).
  destruct (Split_compositeValue field1 field2') as (h' & t' & -> & Hh').
  cbn. by rewrite (before_first_colon_unique _ _ _ Hh Hh').
Qed.

(** X14. [addRecord] is idempotent on the world state: a second successful
    call with the same arguments returns the same value and leaves the
    world state as the first call left it. *)
Theorem addRecord_idempotent
    stub namespace id field1 field2 r r' stub1 stub2 :
  addRecord stub [namespace; id; field1; field2] = (Returns (r, None), stub1) ->
  addRecord stub1 [namespace; id; field1; field2] = (Returns (r', None), stub2) ->
  r' = r /\ stub_state stub2 = stub_state stub1.
Proof.
  intros Hadd1 Hadd2.
  destruct (addRecord_ok _ _ _ _ _ _ _ Hadd1) as (-> & _).
  destruct (addRecord_ok _ _ _ _ _ _ _ Hadd2) as (-> & _).
  split; [done|].
  rewrite (addRecord_state _ _ _ _ _ _ _ Hadd2),
          (addRecord_state _ _ _ _ _ _ _ Hadd1).
  apply insert_insert_eq.
Qed.

(** X15. Successful [addRecord] calls on different Composite Keys commute:
    either order leaves the same world state. *)
Theorem addRecord_commute
    stub ns1 id1 f1 g1 ns2 id2 f2 g2 r1 r2 r1' r2' s1 s2 t1 t2 :
  compositeKey ns1 id1 <> compositeKey ns2 id2 ->
  addRecord stub [ns1; id1; f1; g1] = (Returns (r1, None), s1) ->
  addRecord s1 [ns2; id2; f2; g2] = (Returns (r2, None), s2) ->
  addRecord stub [ns2; id2; f2; g2] = (Returns (r2', None), t1) ->
  addRecord t1 [ns1; id1; f1; g1] = (Returns (r1', None), t2) ->
  stub_state s2 = stub_state t2.
Proof.
  intros Hne Hs1 Hs2 Ht1 Ht2.
  rewrite (addRecord_state _ _ _ _ _ _ _ Hs2), (addRecord_state _ _ _ _ _ _ _ Hs1),
          (addRecord_state _ _ _ _ _ _ _ Ht2), (addRecord_state _ _ _ _ _ _ _ Ht1).
  by apply insert_insert_ne.
Qed.

(** X16. The value that a successful [addRecord] returns splits back into
    the two fields when neither has a colon. *)
Theorem addRecord_value_splits stub namespace id field1 field2 r stub1 :
  colon_free field1 = true ->
  colon_free field2 = true ->
  addRecord stub [namespace; id; field1; field2] = (Returns (r, None), stub1) ->
  Split r ":" = [field1; field2].
Proof.
  intros Hf1 Hf2 Hadd.
  destruct (addRecord_ok _ _ _ _ _ _ _ Hadd) as (-> & _).
  unfold compositeValue. by rewrite (Split_first _ _ Hf1), (Split_colon_free _ Hf2).
Qed.

(** X17. A four-argument [addRecord] makes exactly one ledger call, the
    put of the value at the key, without reading first, whether the put
    faults or not; a two-argument [getRecord] makes exactly one ledger
    call, the get of the key. *)
Theorem addRecord_getRecord_calls stub namespace id field1 field2 :
  stub_calls (addRecord stub [namespace; id; field1; field2]).2
    = (stub_calls stub ++
       [CallPutState (compositeKey namespace id)
                     (bytes_of_string (compositeValue field1 field2))])%list /\
  stub_calls (getRecord stub [namespace; id]).2
    = (stub_calls stub ++ [CallGetState (compositeKey namespace id)])%list.
Proof.
  split.
  - rewrite addRecord_eq; cbv zeta. by destruct (stub_PutState_err stub _ _).
  - rewrite getRecord_eq; cbv zeta.
    destruct (stub_GetState_err stub _); [done|].
    destruct (stub_state stub !! _) as [v|]; [|done].
    by destruct (Split_nonempty (string_of_bytes v) ":") as (r & t & ->).
Qed.

(** X18. Splitting on the colon loses nothing: no piece has a colon, and
    joining the pieces with colons gives the string back. *)
Theorem Split_Join s :
  Join (Split s ":") ":" = s /\
  Forall (fun piece => colon_free piece = true) (Split s ":").
Proof.
  induction s as [|c s [IHj IHf]]; [by split; [|repeat constructor]|].
  rewrite Split_colon_cons.
  destruct (Split_nonempty s ":") as (h & t & Hs). rewrite Hs in *.
  destruct (Ascii.eqb_spec c ":") as [->|Hne].
  - split; [|by constructor].
    change (Join (EmptyString :: h :: t) ":")
      with (EmptyString +:+ ":" +:+ Join (h :: t) ":").
    by rewrite IHj.
  - split.
    + destruct t as [|h' t]; [cbn in *; by rewrite IHj|].
      change (Join (String c h :: h' :: t) ":")
        with (String c h +:+ ":" +:+ Join (h' :: t) ":").
      rewrite append_cons. f_equal. exact IHj.
    + inversion IHf as [|? ? Hh Ht]; subst. constructor; [|done].
      cbn [colon_free]. rewrite Hh. by destruct (Ascii.eqb_spec c ":").
Qed.

End Composition.

(** ** The plaintext operations through the dispatcher *)

Section PlainDispatch.

Context `{Entities}.
Variable NotFoundError : error.

Lemma addRecord_congr stub stub' args :
  stub_state stub = stub_state stub' ->
  stub_PutState_err stub = stub_PutState_err stub' ->
  (addRecord stub args).1 = (addRecord stub' args).1 /\
  stub_state (addRecord stub args).2 = stub_state (addRecord stub' args).2.
Proof.
  intros Hst Hput.
  destruct (Nat.eq_dec (length args) 4) as [Hlen|Hlen].
  - destruct (length_4_inv _ Hlen) as (a0 & a1 & a2 & a3 & ->).
    rewrite !addRecord_eq; cbv zeta. rewrite Hput, Hst.
    by destruct (stub_PutState_err stub' _ _).
  - unfold addRecord. by destruct (Nat.eqb_spec (length args) 4).
Qed.

Lemma getRecord_congr stub stub' args :
  stub_state stub = stub_state stub' ->
  stub_GetState_err stub = stub_GetState_err stub' ->
  (getRecord stub args).1 = (getRecord stub' args).1 /\
  stub_state (getRecord stub args).2 = stub_state (getRecord stub' args).2.
Proof.
  intros Hst Hget. split; [|by rewrite !getRecord_state_kept].
  destruct (Nat.eq_dec (length args) 2) as [Hlen|Hlen].
  - destruct (length_2_inv _ Hlen) as (a0 & a1 & ->).
    apply getRecord_same; [done|by rewrite Hst].
  - unfold getRecord. by destruct (Nat.eqb_spec (length args) 2).
Qed.

Lemma respond_congr run run' :
  run.1 = run'.1 -> stub_state run.2 = stub_state run'.2 ->
  (respond run).1 = (respond run').1 /\
  stub_state (respond run).2 = stub_state (respond run').2.
Proof.
  destruct run as [[[r [e|]]|] s], run' as [[[r' [e'|]]|] s']; cbn;
    intros [=] Hst; subst; done.
Qed.

(** X19. The plaintext operations do not look at the secrets: with the
    transient map retrieved, the answer of an [addRecord] or [getRecord]
    invocation and the world state it leaves are the same whatever the
    transient map holds. *)
Theorem Invoke_plain_ignores_transient t fn args tMap tMap' base :
  fn = "addRecord" \/ fn = "getRecord" ->
  let run := Invoke NotFoundError t (next_stub fn args tMap base) in
  let run' := Invoke NotFoundError t (next_stub fn args tMap' base) in
  run.1 = run'.1 /\ stub_state run.2 = stub_state run'.2.
Proof.
  intros [-> | ->]; cbv zeta;
    unfold Invoke, GetFunctionAndParameters, GetTransient;
    cbn [next_stub stub_fn stub_args stub_transient String.eqb Ascii.eqb Bool.eqb].
  - apply respond_congr; by apply addRecord_congr.
  - apply respond_congr; by apply getRecord_congr.
Qed.

(** X20. Round trip through the dispatcher: an [addRecord] invocation on a
    ledger that reports no fault answers with status 200 and the bytes of
    [field1:field2], and a following [getRecord] invocation for the same
    namespace and id answers with status 200 and the bytes of [field1],
    when [field1] has no colon. *)
Theorem Invoke_addRecord_getRecord
    t stub tMap tMap' namespace id field1 field2 :
  stub_fn stub = "addRecord" ->
  stub_args stub = [namespace; id; field1; field2] ->
  stub_transient stub = (tMap, None) ->
  colon_free field1 = true ->
  stub_PutState_err stub (compositeKey namespace id)
    (bytes_of_string (compositeValue field1 field2)) = None ->
  stub_GetState_err stub (compositeKey namespace id) = None ->
  exists stub1 stub2,
    Invoke NotFoundError t stub
      = (Returns (shim_Success
                    (Some (bytes_of_string (compositeValue field1 field2)))),
         stub1) /\
    Invoke NotFoundError t (next_stub "getRecord" [namespace; id] tMap' stub1)
      = (Returns (shim_Success (Some (bytes_of_string field1))), stub2).
Proof.
  intros Hfn Hargs Htr Hfree Hput Hget.
  unfold Invoke at 1, GetFunctionAndParameters, GetTransient.
  rewrite Hfn, Hargs, Htr. cbn [String.eqb Ascii.eqb Bool.eqb].
  destruct (addRecord stub [namespace; id; field1; field2]) as [o stub1] eqn:Hadd.
  pose proof Hadd as Hadd'. rewrite addRecord_eq in Hadd'; cbv zeta in Hadd'.
  rewrite Hput in Hadd'. injection Hadd' as <- Hstub1.
  destruct (addRecord_ok _ _ _ _ _ _ _ Hadd) as (_ & Hst & Hg & _).
  eexists stub1, _. split; [reflexivity|].
  unfold Invoke, GetFunctionAndParameters, GetTransient.
  cbn [next_stub stub_fn stub_args stub_transient String.eqb Ascii.eqb Bool.eqb].
  set (stub1' := next_stub "getRecord" [namespace; id] tMap' stub1).
  assert (stub_GetState_err stub1' (compositeKey namespace id) = None) as Hget'
    by (cbn; by rewrite Hg).
  destruct (getRecord_stored stub1' _ _ _ Hget' Hst) as (r & t' & Hs & ->).
  rewrite string_of_bytes_of_string in Hs. unfold compositeValue in Hs.
  rewrite (Split_first _ _ Hfree) in Hs. injection Hs as <- _.
  reflexivity.
Qed.

End PlainDispatch.

(** ** What an invocation may touch *)

Section Frame.

Context `{Entities}.
Variable NotFoundError : error.

Lemma addRecord_frame stub a0 a1 rest key :
  key <> compositeKey a0 a1 ->
  stub_state (addRecord stub (a0 :: a1 :: rest)).2 !! key = stub_state stub !! key.
Proof.
  intros Hne.
  destruct (Nat.eq_dec (length (a0 :: a1 :: rest)) 4) as [Hlen|Hlen].
  - destruct (length_4_inv _ Hlen) as (b0 & b1 & b2 & b3 & [= -> -> ->]).
    rewrite addRecord_eq; cbv zeta.
    destruct (stub_PutState_err stub _ _); cbn; [done|].
    by rewrite lookup_insert_ne.
  - unfold addRecord.
    by destruct (Nat.eqb_spec (length (a0 :: a1 :: rest)) 4).
Qed.

Lemma Encrypter_frame t stub a0 a1 rest encKey iv key :
  key <> compositeKey a0 a1 ->
  stub_state (Encrypter t stub (a0 :: a1 :: rest) encKey iv).2 !! key
    = stub_state stub !! key.
Proof.
  intros Hne.
  destruct (NewAES256EncrypterEntity "ID" (bccspInst t) encKey iv)
    as [ent|e] eqn:Hent.
  - destruct (Nat.eq_dec (length (a0 :: a1 :: rest)) 4) as [Hlen|Hlen].
    + destruct (length_4_inv _ Hlen) as (b0 & b1 & b2 & b3 & [= -> -> ->]).
      rewrite (Encrypter_eq _ _ _ _ _ _ _ _ _ Hent); cbv zeta.
      destruct (Encrypt ent _) as [ciphertext|e]; [|done].
      destruct (stub_PutState_err stub _ _); cbn; [done|].
      by rewrite lookup_insert_ne.
    + unfold Encrypter, newEntity. rewrite Hent.
      by destruct (Nat.eqb_spec (length (a0 :: a1 :: rest)) 4).
  - unfold Encrypter, newEntity. by rewrite Hent.
Qed.

Lemma respond_state run : (respond run).2 = run.2.
Proof. by destruct run as [[[r [e|]]|] s]. Qed.

Lemma addRecord_short stub args :
  (forall a0 a1 rest, args <> a0 :: a1 :: rest) ->
  stub_state (addRecord stub args).2 = stub_state stub.
Proof.
  intros Hshort. unfold addRecord.
  destruct args as [|a0 [|a1 rest]]; [done..|]. by destruct (Hshort a0 a1 rest).
Qed.

Lemma Encrypter_short t stub args encKey iv :
  (forall a0 a1 rest, args <> a0 :: a1 :: rest) ->
  stub_state (Encrypter t stub args encKey iv).2 = stub_state stub.
Proof.
  intros Hshort. unfold Encrypter, newEntity.
  destruct (NewAES256EncrypterEntity "ID" (bccspInst t) encKey iv); [|done].
  destruct args as [|a0 [|a1 rest]]; [done..|]. by destruct (Hshort a0 a1 rest).
Qed.

(** X5. A successful [Encrypter] returns the cleartext value
    [field1:field2], the value that a successful [addRecord] returns for
    the same arguments, whatever the cipher makes of it. *)
Theorem Encrypter_returns_cleartext
    t stub namespace id field1 field2 encKey iv r stub1 :
  Encrypter t stub [namespace; id; field1; field2] encKey iv
    = (Returns (r, None), stub1) ->
  r = compositeValue field1 field2.
Proof.
  destruct (NewAES256EncrypterEntity "ID" (bccspInst t) encKey iv)
    as [ent|e] eqn:Hent.
  - rewrite (Encrypter_eq _ _ _ _ _ _ _ _ _ Hent); cbv zeta.
    destruct (Encrypt ent _) as [ciphertext|e]; [|done].
    destruct (stub_PutState_err stub _ _); [done|]. by intros [= <- _].
  - unfold Encrypter, newEntity. by rewrite Hent.
Qed.

(** X21. An invocation touches at most the entry at the Composite Key of
    its first two arguments: every other key of the world state, and
    every key when there are fewer than two arguments, holds afterwards
    what it held before. *)
Theorem Invoke_touches_own_key t stub key :
  (forall a0 a1 rest,
     stub_args stub = a0 :: a1 :: rest -> key <> compositeKey a0 a1) ->
  stub_state (Invoke NotFoundError t stub).2 !! key = stub_state stub !! key.
Proof.
  intros Hkey.
  assert (stub_state (addRecord stub (stub_args stub)).2 !! key
          = stub_state stub !! key) as Hadd.
  { destruct (stub_args stub) as [|a0 [|a1 rest]] eqn:Hargs;
      [by rewrite addRecord_short..|].
    by apply addRecord_frame, (Hkey a0 a1 rest). }
  assert (forall encKey iv,
            stub_state (Encrypter t stub (stub_args stub) encKey iv).2 !! key
            = stub_state stub !! key) as Henc.
  { intros encKey iv.
    destruct (stub_args stub) as [|a0 [|a1 rest]] eqn:Hargs;
      [by rewrite Encrypter_short..|].
    by apply Encrypter_frame, (Hkey a0 a1 rest). }
  unfold Invoke, GetFunctionAndParameters, GetTransient.
  destruct (stub_transient stub) as [tMap [e|]]; [done|].
  destruct (String.eqb (stub_fn stub) "addRecord");
    [by rewrite respond_state|].
  destruct (String.eqb (stub_fn stub) "getRecord");
    [by rewrite respond_state, getRecord_state_kept|].
  destruct (String.eqb (stub_fn stub) "encRecord").
  { destruct (tMap !! ENCKEY); [by rewrite respond_state|done]. }
  destruct (String.eqb (stub_fn stub) "decRecord"); [|done].
  destruct (tMap !! DECKEY); [|done]. rewrite respond_state.
  destruct (Decrypter_keeps_state NotFoundError t stub (stub_args stub)
              (tMap_at tMap DECKEY) (tMap_at tMap IV))
    as (r & err & stub' & -> & Hst).
  cbn. by rewrite Hst.
Qed.

End Frame.

(** ** The further properties on concrete runs *)

Lemma Invoke_unsupported_function_witness :
  Invoke TestCipher.notFound TestCipher.asset
         (proposal "delRecord" ["acct"; "7"] ∅ ledger_acct7)
    = (Returns (shim_Error "Unsupported function delRecord"),
       proposal "delRecord" ["acct"; "7"] ∅ ledger_acct7).
Proof.
  apply (@Invoke_unsupported_function TestCipher.entities TestCipher.notFound
           TestCipher.asset
           (proposal "delRecord" ["acct"; "7"] ∅ ledger_acct7) ∅ eq_refl);
    intros [=].
Defined.

Lemma getRecord_arity_witness :
  getRecord (proposal "getRecord" ["acct"] ∅ ledger_acct7) ["acct"]
    = (Returns (EmptyString, Some (Errorf "Incorrect arguments. Expecting a key")),
       proposal "getRecord" ["acct"] ∅ ledger_acct7) /\
  getRecord (proposal "getRecord" ["acct"; "7"; "x"] ∅ ledger_acct7)
            ["acct"; "7"; "x"]
    = (Returns (EmptyString, Some (Errorf "Incorrect arguments. Expecting a key")),
       proposal "getRecord" ["acct"; "7"; "x"] ∅ ledger_acct7).
Proof.
  split; apply getRecord_arity; cbn; lia.
Defined.

Lemma getRecord_read_fault_witness :
  exists stub1,
    getRecord (proposal_get_fault "getRecord" ["acct"; "7"] ∅ ledger_acct7)
              ["acct"; "7"]
      = (Returns (EmptyString,
                  Some (Errorf "Failed to get asset: acct with error: read fault")),
         stub1) /\
    stub_state stub1 = ledger_acct7.
Proof.
  apply (getRecord_read_fault
           (proposal_get_fault "getRecord" ["acct"; "7"] ∅ ledger_acct7)
           "acct" "7" (Errorf "read fault")).
  reflexivity.
Defined.

Lemma decRecord_arity_witness :
  Invoke TestCipher.notFound TestCipher.asset
         (proposal "decRecord" ["acct"] (bundle DECKEY TestCipher.key32)
                   ledger_acct7)
    = (Returns (shim_Error "Expected 2 parameters to function Decrypter"),
       record_call (CallNewEntity TestCipher.key32 [])
         (proposal "decRecord" ["acct"] (bundle DECKEY TestCipher.key32)
                   ledger_acct7)).
Proof.
  apply (proj1 (@decRecord_arity TestCipher.entities TestCipher.notFound
                  TestCipher.asset
                  (proposal "decRecord" ["acct"] (bundle DECKEY TestCipher.key32)
                            ledger_acct7)
                  (bundle DECKEY TestCipher.key32) TestCipher.key32
                  eq_refl eq_refl ltac:(vm_compute; reflexivity))
               (TestCipher.key32, [])).
  - vm_compute; reflexivity.
  - cbn; lia.
Defined.

Lemma Encrypter_returns_cleartext_witness :
  "bob:50" = compositeValue "bob" "50".
Proof.
  apply (@Encrypter_returns_cleartext TestCipher.entities TestCipher.asset
           (proposal "encRecord" ["acct"; "8"; "bob"; "50"]
                     (bundle ENCKEY TestCipher.key32) ∅)
           "acct" "8" "bob" "50" TestCipher.key32 [] "bob:50"
           (Encrypter TestCipher.asset
              (proposal "encRecord" ["acct"; "8"; "bob"; "50"]
                        (bundle ENCKEY TestCipher.key32) ∅)
              ["acct"; "8"; "bob"; "50"] TestCipher.key32 []).2).
  vm_compute; reflexivity.
Defined.


Lemma Invoke_keeps_keys_witness :
  is_Some
    (stub_state
       (Invoke TestCipher.notFound TestCipher.asset
          (proposal "addRecord" ["acct"; "8"; "bob"; "50"] ∅ ledger_acct7)).2
     !! "acct:7").
Proof.
  apply (@Invoke_keeps_keys TestCipher.entities TestCipher.notFound
           TestCipher.asset
           (proposal "addRecord" ["acct"; "8"; "bob"; "50"] ∅ ledger_acct7)
           "acct:7").
  exists (bytes_of_string "alice:100"). vm_compute; reflexivity.
Defined.


Lemma addRecord_getRecord_shifted_colon_witness :
  exists stub1 stub2 r,
    addRecord (proposal "addRecord" ["org:hr"; "7"; "alice"; "100"] ∅ ∅)
              ["org:hr"; "7"; "alice"; "100"]
      = (Returns ("alice:100", None), stub1) /\
    getRecord stub1 ["org"; "hr:7"] = (Returns (r, None), stub2) /\
    before_first_colon r "alice".
Proof.
  apply (addRecord_getRecord_shifted_colon
           (proposal "addRecord" ["org:hr"; "7"; "alice"; "100"] ∅ ∅)
           "org" "hr" "7" "alice" "100"); reflexivity.
Defined.

Lemma addRecord_other_key_witness :
  let stub := proposal "addRecord" ["acct"; "8"; "bob"; "50"] ∅ ledger_acct7 in
  let stub1 := (addRecord stub ["acct"; "8"; "bob"; "50"]).2 in
  stub_state stub1 !! "acct:7" = stub_state stub !! "acct:7" /\
  (getRecord stub1 ["acct"; "7"]).1 = (getRecord stub ["acct"; "7"]).1.
Proof.
  intros stub.
  apply (addRecord_other_key stub "acct" "8" "bob" "50" "acct" "7");
    [reflexivity|reflexivity|intros [=]].
Defined.

Lemma getRecord_ignores_field2_witness :
  let stub := proposal "addRecord" [] ∅ ∅ in
  (getRecord (addRecord stub ["acct"; "7"; "alice"; "100"]).2 ["acct"; "7"]).1
  = (getRecord (addRecord stub ["acct"; "7"; "alice"; "200"]).2 ["acct"; "7"]).1.
Proof.
  intros stub.
  apply (getRecord_ignores_field2 stub "acct" "7" "alice" "100" "200"
           "alice:100" "alice:200");
    vm_compute; reflexivity.
Defined.

Lemma addRecord_idempotent_witness :
  let stub := proposal "addRecord" [] ∅ ∅ in
  let stub1 := (addRecord stub ["acct"; "7"; "alice"; "100"]).2 in
  let stub2 := (addRecord stub1 ["acct"; "7"; "alice"; "100"]).2 in
  "alice:100" = "alice:100" /\ stub_state stub2 = stub_state stub1.
Proof.
  intros stub stub1 stub2.
  apply (addRecord_idempotent stub "acct" "7" "alice" "100"
           "alice:100" "alice:100" stub1 stub2);
    vm_compute; reflexivity.
Defined.

Lemma addRecord_commute_witness :
  let stub := proposal "addRecord" [] ∅ ∅ in
  let s1 := (addRecord stub ["acct"; "7"; "alice"; "100"]).2 in
  let s2 := (addRecord s1 ["acct"; "8"; "bob"; "50"]).2 in
  let t1 := (addRecord stub ["acct"; "8"; "bob"; "50"]).2 in
  let t2 := (addRecord t1 ["acct"; "7"; "alice"; "100"]).2 in
  stub_state s2 = stub_state t2.
Proof.
  intros stub s1 s2 t1 t2.
  apply (addRecord_commute stub "acct" "7" "alice" "100" "acct" "8" "bob" "50"
           "alice:100" "bob:50" "alice:100" "bob:50" s1 s2 t1 t2);
    [intros [=]|vm_compute; reflexivity..].
Defined.

Lemma addRecord_value_splits_witness :
  Split "alice:100" ":" = ["alice"; "100"].
Proof.
  apply (addRecord_value_splits (proposal "addRecord" [] ∅ ∅)
           "acct" "7" "alice" "100" "alice:100"
           (addRecord (proposal "addRecord" [] ∅ ∅)
                      ["acct"; "7"; "alice"; "100"]).2);
    vm_compute; reflexivity.
Defined.

Lemma Invoke_plain_ignores_transient_witness :
  let run := Invoke TestCipher.notFound TestCipher.asset
               (next_stub "getRecord" ["acct"; "7"] ∅
                          (proposal "getRecord" [] ∅ ledger_acct7)) in
  let run' := Invoke TestCipher.notFound TestCipher.asset
                (next_stub "getRecord" ["acct"; "7"]
                           (bundle DECKEY TestCipher.key32)
                           (proposal "getRecord" [] ∅ ledger_acct7)) in
  run.1 = run'.1 /\ stub_state run.2 = stub_state run'.2.
Proof.
  apply (@Invoke_plain_ignores_transient TestCipher.entities TestCipher.notFound
           TestCipher.asset "getRecord" ["acct"; "7"] ∅
           (bundle DECKEY TestCipher.key32)
           (proposal "getRecord" [] ∅ ledger_acct7)).
  right; reflexivity.
Defined.

Lemma Invoke_addRecord_getRecord_witness :
  exists stub1 stub2,
    Invoke TestCipher.notFound TestCipher.asset
           (proposal "addRecord" ["acct"; "7"; "alice"; "100"] ∅ ∅)
      = (Returns (shim_Success (Some (bytes_of_string "alice:100"))), stub1) /\
    Invoke TestCipher.notFound TestCipher.asset
           (next_stub "getRecord" ["acct"; "7"] ∅ stub1)
      = (Returns (shim_Success (Some (bytes_of_string "alice"))), stub2).
Proof.
  apply (@Invoke_addRecord_getRecord TestCipher.entities TestCipher.notFound
           TestCipher.asset
           (proposal "addRecord" ["acct"; "7"; "alice"; "100"] ∅ ∅)
           ∅ ∅ "acct" "7" "alice" "100"); reflexivity.
Defined.

Lemma Invoke_touches_own_key_witness :
  stub_state
    (Invoke TestCipher.notFound TestCipher.asset
       (proposal "addRecord" ["acct"; "8"; "bob"; "50"] ∅ ledger_acct7)).2
    !! "acct:7"
  = ledger_acct7 !! "acct:7".
Proof.
  apply (@Invoke_touches_own_key TestCipher.entities TestCipher.notFound
           TestCipher.asset
           (proposal "addRecord" ["acct"; "8"; "bob"; "50"] ∅ ledger_acct7)
           "acct:7").
  intros a0 a1 rest [= <- <- _]. intros [=].
Defined.
